(** * genblog: the persisted models of [app/models.py]

    A shallow embedding of the module [app/models.py]: the two mapped
    classes [User] and [Post], the two credential methods of [User], the
    login callback [load_user], and the part of the language and of the
    storage layer the module leans on (name resolution, the built-in [int],
    primary-key lookup, column constraints, column defaults). *)

From Stdlib Require Import ZArith NArith Ascii String List Sorted Lia.
From stdpp Require Import base option gmap strings list pretty.

Open Scope Z_scope.

(** ** The Python layer *)

Module Py.

(** Exceptions the modelled code paths can raise. *)
Inductive exn :=
| NameError (name : string)
| TypeError (msg : string)
| ValueError (msg : string)
| AttributeError (attr : string)
| IntegrityError (constraint : string)
| OverflowError (msg : string)
| OperationalError (msg : string).

(** The outcome of evaluating an expression or running a call. *)
Inductive result (A : Type) :=
| Return (a : A)
| Raise (e : exn).
Arguments Return {A} a.
Arguments Raise {A} e.

Definition rbind {A B} (r : result A) (k : A → result B) : result B :=
  match r with
  | Return a => k a
  | Raise e => Raise e
  end.

(** Code that reads and writes a state [S] and may raise: on an exception
    the state reached so far is kept. *)
Definition M (S A : Type) : Type := S → result A * S.

Definition ret {S A} (a : A) : M S A := λ s, (Return a, s).
Definition bind {S A B} (m : M S A) (k : A → M S B) : M S B :=
  λ s, match m s with
       | (Return a, s') => k a s'
       | (Raise e, s') => (Raise e, s')
       end.
Definition lift {S A} (r : result A) : M S A := λ s, (r, s).
Definition gets {S A} (f : S → A) : M S A := λ s, (Return (f s), s).
Definition modify {S} (f : S → S) : M S unit := λ s, (Return tt, f s).

#[global] Instance result_ret : MRet result := @Return.
#[global] Instance result_bind : MBind result := λ A B k r, rbind r k.
#[global] Instance M_ret {S} : MRet (M S) := @ret S.
#[global] Instance M_bind {S} : MBind (M S) := λ A B k m, bind m k.

(** First-order values that cross a call boundary. *)
Inductive pyval :=
| VNone
| VBool (b : bool)
| VInt (n : Z)
| VStr (s : string).

(** What a name can be bound to.  Modules, classes and extension instances
    are kept opaque (the module never calls one of them); callables carry
    their meaning. *)
Inductive pyobj :=
| Opaque (qualname : string)
| Callable1 (f : pyval → result pyval)
| Callable2 (f : pyval → pyval → result pyval).

Definition call1 (f : pyobj) (a : pyval) : result pyval :=
  match f with
  | Callable1 h => h a
  | Callable2 _ => Raise (TypeError "missing 1 required positional argument")
  | Opaque _ => Raise (TypeError "object is not callable")
  end.

Definition call2 (f : pyobj) (a b : pyval) : result pyval :=
  match f with
  | Callable2 h => h a b
  | Callable1 _ => Raise (TypeError "takes 1 positional argument but 2 were given")
  | Opaque _ => Raise (TypeError "object is not callable")
  end.

(** *** The built-in [int] on a [str]

    A [str] is modelled over the code points 0..255.  [int(s)] first maps
    non-ASCII white space to a blank and cuts the text at the first other
    code point from 127 on, then reads: white space, an optional sign,
    decimal digits with single underscores between them, white space.  The
    order of the checks is that of CPython 3.11: the limit on the number of
    digits is checked as soon as the digits have been scanned, before the
    text after them is looked at. *)

Definition code (c : ascii) : N := N_of_ascii c.

Definition Py_ISSPACE (c : ascii) : bool :=
  ((9 <=? code c) && (code c <=? 13) || (code c =? 32))%N.

Definition Py_UNICODE_ISSPACE (c : ascii) : bool :=
  ((9 <=? code c) && (code c <=? 13) || (28 <=? code c) && (code c <=? 32)
   || (code c =? 133) || (code c =? 160))%N.

Definition digit_value (c : ascii) : option Z :=
  if ((48 <=? code c) && (code c <=? 57))%N then Some (Z.of_N (code c) - 48)
  else None.

Fixpoint TransformDecimalAndSpaceToASCII (s : string) : string :=
  match s with
  | EmptyString => EmptyString
  | String c s' =>
      if (code c <? 127)%N then String c (TransformDecimalAndSpaceToASCII s')
      else if Py_UNICODE_ISSPACE c
           then String " " (TransformDecimalAndSpaceToASCII s')
           else "?"%string
  end.

Fixpoint skip_space (s : string) : string :=
  match s with
  | String c s' => if Py_ISSPACE c then skip_space s' else s
  | EmptyString => s
  end.

(** The scan of [long_from_string_base]: [prev] tells whether the previous
    character was an underscore, [digits] counts the digits read and [acc]
    is their value.  It stops at the first character that is neither a digit
    nor an underscore and gives back the rest of the text; [None] is a
    syntax error. *)
Fixpoint scan_digits (s : string) (prev : bool) (digits : N) (acc : Z)
  : option (N * Z * string) :=
  match s with
  | EmptyString => if prev then None else Some (digits, acc, s)
  | String c s' =>
      if Ascii.eqb c "_" then
        if prev then None else scan_digits s' true digits acc
      else
        match digit_value c with
        | Some d => scan_digits s' false (digits + 1)%N (10 * acc + d)
        | None => if prev then None else Some (digits, acc, s)
        end
  end.

Definition int_max_str_digits : N := 4300.

Definition invalid_literal : exn :=
  ValueError "invalid literal for int() with base 10".
Definition exceeds_limit : exn :=
  ValueError "Exceeds the limit (4300 digits) for integer string conversion".

Definition starts_with (c : ascii) (s : string) : bool :=
  match s with
  | String c' _ => Ascii.eqb c' c
  | EmptyString => false
  end.

Definition tail (s : string) : string :=
  match s with
  | String _ s' => s'
  | EmptyString => EmptyString
  end.

Definition PyLong_FromString (s : string) : result Z :=
  let s1 := skip_space s in
  let '(sign, s2) :=
    if starts_with "+" s1 then (1, tail s1)
    else if starts_with "-" s1 then (-1, tail s1)
    else (1, s1) in
  if starts_with "_" s2 then Raise invalid_literal
  else
    match scan_digits s2 false 0%N 0 with
    | None => Raise invalid_literal
    | Some (digits, acc, rest) =>
        if (int_max_str_digits <? digits)%N then Raise exceeds_limit
        else if (digits =? 0)%N then Raise invalid_literal
        else match skip_space rest with
             | EmptyString => Return (sign * acc)
             | String _ _ => Raise invalid_literal
             end
    end.

Definition int_of_str (s : string) : result Z :=
  PyLong_FromString (TransformDecimalAndSpaceToASCII s).

(** [int(x)] with one argument. *)
Definition int (x : pyval) : result pyval :=
  match x with
  | VStr s => n ← int_of_str s; Return (VInt n)
  | VInt n => Return (VInt n)
  | VBool b => Return (VInt (if b then 1 else 0))
  | VNone => Raise (TypeError "int() argument must be a string, a bytes-like object or a real number, not 'NoneType'")
  end.

(** *** Name resolution

    A global name used in a function body is looked up when the body runs:
    first in the globals of the defining module, then among the built-ins;
    a name bound in neither raises [NameError]. *)

Definition builtin_names : list string :=
  [ "abs"; "aiter"; "all"; "anext"; "any"; "ascii"; "bin"; "bool";
    "breakpoint"; "bytearray"; "bytes"; "callable"; "chr"; "classmethod";
    "compile"; "complex"; "delattr"; "dict"; "dir"; "divmod"; "enumerate";
    "eval"; "exec"; "filter"; "float"; "format"; "frozenset"; "getattr";
    "globals"; "hasattr"; "hash"; "help"; "hex"; "id"; "input";
    "isinstance"; "issubclass"; "iter"; "len"; "list"; "locals"; "map";
    "max"; "memoryview"; "min"; "next"; "object"; "oct"; "open"; "ord";
    "pow"; "print"; "property"; "range"; "repr"; "reversed"; "round"; "set";
    "setattr"; "slice"; "sorted"; "staticmethod"; "str"; "sum"; "super";
    "tuple"; "type"; "vars"; "zip"; "__import__" ]%string.

Definition builtin_constants_and_exceptions : list string :=
  [ "ArithmeticError"; "AssertionError"; "AttributeError"; "BaseException";
    "BaseExceptionGroup"; "BlockingIOError"; "BrokenPipeError"; "BufferError";
    "BytesWarning"; "ChildProcessError"; "ConnectionAbortedError";
    "ConnectionError"; "ConnectionRefusedError"; "ConnectionResetError";
    "DeprecationWarning"; "EOFError"; "Ellipsis"; "EncodingWarning";
    "EnvironmentError"; "Exception"; "ExceptionGroup"; "False";
    "FileExistsError"; "FileNotFoundError"; "FloatingPointError";
    "FutureWarning"; "GeneratorExit"; "IOError"; "ImportError";
    "ImportWarning"; "IndentationError"; "IndexError"; "InterruptedError";
    "IsADirectoryError"; "KeyError"; "KeyboardInterrupt"; "LookupError";
    "MemoryError"; "ModuleNotFoundError"; "NameError"; "None";
    "NotADirectoryError"; "NotImplemented"; "NotImplementedError"; "OSError";
    "OverflowError"; "PendingDeprecationWarning"; "PermissionError";
    "ProcessLookupError"; "RecursionError"; "ReferenceError";
    "ResourceWarning"; "RuntimeError"; "RuntimeWarning";
    "StopAsyncIteration"; "StopIteration"; "SyntaxError"; "SyntaxWarning";
    "SystemError"; "SystemExit"; "TabError"; "TimeoutError"; "True";
    "TypeError"; "UnboundLocalError"; "UnicodeDecodeError";
    "UnicodeEncodeError"; "UnicodeError"; "UnicodeTranslateError";
    "UnicodeWarning"; "UserWarning"; "ValueError"; "Warning";
    "ZeroDivisionError"; "__build_class__"; "__debug__"; "__doc__";
    "__loader__"; "__name__"; "__package__"; "__spec__"; "copyright";
    "credits"; "exit"; "license"; "quit" ]%string.

(** The names of the [builtins] module: the built-in functions, constants
    and exception classes.  Only [int] is called by the module and carries
    its meaning. *)
Definition builtins : gmap string pyobj :=
  <["int"%string := Callable1 int]>
    (list_to_map
       ((λ n, (n, Opaque ("builtins." ++ n)%string))
          <$> (builtin_names ++ builtin_constants_and_exceptions))).

Definition resolve (globals : gmap string pyobj) (name : string) : result pyobj :=
  match globals !! name with
  | Some o => Return o
  | None =>
      match builtins !! name with
      | Some o => Return o
      | None => Raise (NameError name)
      end
  end.

End Py.

Import Py.

(** ** The storage layer

    What the relational store does with the column declarations of a mapped
    class: NOT NULL and UNIQUE / PRIMARY KEY checks on insert and update,
    generated integer keys, lookup by primary key.  The store is modelled
    as SQLite behind the [sqlite3] driver: integers are signed 64-bit, an
    integer parameter outside that range is refused by the driver with
    [OverflowError] before the statement runs, the length of a [String(n)]
    column is not enforced, and neither are the foreign keys (they are
    recorded). *)

Module Storage.

Inductive cell :=
| Null
| Int (n : Z)
| Str (s : string)
| DateTime (t : Z).

#[global] Instance cell_eq_dec : EqDecision cell.
Proof. solve_decision. Defined.

Inductive coltype :=
| Integer
| String (length : nat)
| DateTimeType.

Record Column (R : Type) := {
  name : string;
  type : coltype;
  get : R → cell;
  primary_key : bool;
  index : bool;
  unique : bool;
  nullable : bool;
  foreign_key : option string;
}.
Arguments name {R} c.
Arguments type {R} c.
Arguments get {R} c r.
Arguments primary_key {R} c.
Arguments index {R} c.
Arguments unique {R} c.
Arguments nullable {R} c.
Arguments foreign_key {R} c.

Section Table.
Context {R : Type} (cols : list (Column R)).

Definition is_null (v : cell) : bool := bool_decide (v = Null).

Definition must_be_unique (c : Column R) : bool := primary_key c || unique c.

(** The new row [new] clashes with the stored row [old] on column [c]. *)
Definition clashes (c : Column R) (new old : R) : bool :=
  must_be_unique c && negb (is_null (get c new))
  && bool_decide (get c old = get c new).

Definition violated_unique (rows : list R) (new : R) : option string :=
  name <$> find (λ c, existsb (clashes c new) rows) cols.

Definition violated_not_null (new : R) : option string :=
  name <$> find (λ c, negb (nullable c) && is_null (get c new)) cols.

Definition check (rows : list R) (new : R) : result unit :=
  match violated_not_null new with
  | Some n => Raise (IntegrityError ("NOT NULL constraint failed: " ++ n))
  | None =>
      match violated_unique rows new with
      | Some n => Raise (IntegrityError ("UNIQUE constraint failed: " ++ n))
      | None => Return tt
      end
  end.

Definition key (r : R) : list cell :=
  (λ c, get c r) <$> filter (λ c, primary_key c = true) cols.

Definition has_key (pk : Z) (r : R) : bool := bool_decide (key r = [Int pk]).

(** INSERT: the row is appended when it passes the checks. *)
Definition insert (new : R) (rows : list R) : result (list R) :=
  _ ← check rows new; Return (rows ++ [new]).

(** UPDATE of the row with key [pk]: the new row is checked against the
    other rows and takes the place of the old one; no row, no change. *)
Definition update (pk : Z) (new : R) (rows : list R) : result (list R) :=
  if existsb (has_key pk) rows then
    _ ← check (filter (λ r, has_key pk r = false) rows) new;
    Return ((λ r, if has_key pk r then new else r) <$> rows)
  else Return rows.

(** DELETE of the row with key [pk]. *)
Definition delete (pk : Z) (rows : list R) : list R :=
  filter (λ r, has_key pk r = false) rows.

(** SELECT by primary key, as [Session.get(entity, pk)] issues it: the
    row, or nothing. *)
Definition lookup (pk : Z) (rows : list R) : option R :=
  find (has_key pk) rows.
End Table.

(** The integers the store holds. *)
Definition min_int : Z := - 2 ^ 63.
Definition max_int : Z := 2 ^ 63 - 1.

Definition in_range (z : Z) : bool := (min_int <=? z) && (z <=? max_int).

Definition overflow : exn :=
  OverflowError "Python int too large to convert to SQLite INTEGER".

(** An integer handed to a statement as a parameter. *)
Definition bind_int (z : Z) : result Z :=
  if in_range z then Return z else Raise overflow.

(** The key the store generates for a new row: 1 in an empty table, and
    otherwise one more than the largest key in the table. *)
Definition next_id {R} (id : R → Z) (rows : list R) : Z :=
  match rows with
  | [] => 1
  | r :: rows' => 1 + fold_right Z.max (id r) (id <$> rows')
  end.

(** When the largest key of the table is the largest integer, no key is
    left above it.  (SQLite then tries keys at random and gives up with this
    error when it finds none that is free; the choice is not a function of
    the table, and the failure is what is kept of it here.) *)
Definition generated (key : Z) : result Z :=
  if key <=? max_int then Return key
  else Raise (OperationalError "database or disk is full").

End Storage.

(** ** The mapped classes *)

(** The value of a [timestamp] column: a date and time of day as the
    store keeps it, that is the fields of a [datetime] without its zone,
    counted in microseconds from 1970-01-01 00:00:00. *)
Definition instant := Z.

(** The zone [timezone.utc], as its offset from UTC. *)
Definition timezone_utc : Z := 0.

(** [datetime.now(tz)]: the fields of the current date and time in the zone
    [tz], or in the local zone of the machine when no zone is given.
    [utc_now] is the reading of the system clock in UTC and [local_offset]
    the offset of the local zone of the machine, both in microseconds. *)
Definition datetime_now (tz : option Z) (utc_now local_offset : Z) : instant :=
  utc_now + match tz with
            | Some offset => offset
            | None => local_offset
            end.

Module User.

Record t := {
  id : Z;
  username : string;
  email : string;
  password_hash : option string;
}.

Definition with_password_hash (h : option string) (u : t) : t :=
  {| id := id u; username := username u; email := email u;
     password_hash := h |}.

Definition id_column : Storage.Column t :=
  {| Storage.name := "id"; Storage.type := Storage.Integer;
     Storage.get := λ u, Storage.Int (id u);
     Storage.primary_key := true; Storage.index := false;
     Storage.unique := false; Storage.nullable := false;
     Storage.foreign_key := None |}.

Definition username_column : Storage.Column t :=
  {| Storage.name := "username"; Storage.type := Storage.String 64;
     Storage.get := λ u, Storage.Str (username u);
     Storage.primary_key := false; Storage.index := true;
     Storage.unique := true; Storage.nullable := false;
     Storage.foreign_key := None |}.

Definition email_column : Storage.Column t :=
  {| Storage.name := "email"; Storage.type := Storage.String 120;
     Storage.get := λ u, Storage.Str (email u);
     Storage.primary_key := false; Storage.index := true;
     Storage.unique := true; Storage.nullable := false;
     Storage.foreign_key := None |}.

Definition password_hash_column : Storage.Column t :=
  {| Storage.name := "password_hash"; Storage.type := Storage.String 256;
     Storage.get := λ u, match password_hash u with
                         | Some h => Storage.Str h
                         | None => Storage.Null
                         end;
     Storage.primary_key := false; Storage.index := false;
     Storage.unique := false; Storage.nullable := true;
     Storage.foreign_key := None |}.

Definition columns : list (Storage.Column t) :=
  [ id_column; username_column; email_column; password_hash_column ].

End User.

Module Post.

Record t := {
  id : Z;
  body : string;
  timestamp : instant;
  user_id : Z;
}.

Definition id_column : Storage.Column t :=
  {| Storage.name := "id"; Storage.type := Storage.Integer;
     Storage.get := λ p, Storage.Int (id p);
     Storage.primary_key := true; Storage.index := false;
     Storage.unique := false; Storage.nullable := false;
     Storage.foreign_key := None |}.

Definition body_column : Storage.Column t :=
  {| Storage.name := "body"; Storage.type := Storage.String 140;
     Storage.get := λ p, Storage.Str (body p);
     Storage.primary_key := false; Storage.index := false;
     Storage.unique := false; Storage.nullable := false;
     Storage.foreign_key := None |}.

Definition timestamp_column : Storage.Column t :=
  {| Storage.name := "timestamp"; Storage.type := Storage.DateTimeType;
     Storage.get := λ p, Storage.DateTime (timestamp p);
     Storage.primary_key := false; Storage.index := true;
     Storage.unique := false; Storage.nullable := false;
     Storage.foreign_key := None |}.

Definition user_id_column : Storage.Column t :=
  {| Storage.name := "user_id"; Storage.type := Storage.Integer;
     Storage.get := λ p, Storage.Int (user_id p);
     Storage.primary_key := false; Storage.index := true;
     Storage.unique := false; Storage.nullable := false;
     Storage.foreign_key := Some "user.id" |}.

Definition columns : list (Storage.Column t) :=
  [ id_column; body_column; timestamp_column; user_id_column ].

(** [default=lambda: datetime.now(timezone.utc)]: the two names are looked
    up when the default is called, and the value is what [datetime.now]
    gives for the zone [timezone.utc] at that moment. *)
Definition timestamp_default (globals : gmap string pyobj)
    (utc_now local_offset : Z) : result instant :=
  _ ← resolve globals "datetime";
  _ ← resolve globals "timezone";
  Return (datetime_now (Some timezone_utc) utc_now local_offset).

End Post.

(** ** The module's globals

    The names bound once the module has been executed: those every module
    has, those of the [import] lines 1 to 6, and the three definitions. *)
Definition models_globals : gmap string pyobj :=
  list_to_map
    [ ("__name__", Opaque "app.models.__name__");
      ("__doc__", Opaque "app.models.__doc__");
      ("__package__", Opaque "app.models.__package__");
      ("__loader__", Opaque "app.models.__loader__");
      ("__spec__", Opaque "app.models.__spec__");
      ("__file__", Opaque "app.models.__file__");
      ("__cached__", Opaque "app.models.__cached__");
      ("__builtins__", Opaque "builtins");
      ("datetime", Opaque "datetime.datetime");
      ("timezone", Opaque "datetime.timezone");
      ("Optional", Opaque "typing.Optional");
      ("sa", Opaque "sqlalchemy");
      ("so", Opaque "sqlalchemy.orm");
      ("login", Opaque "app.login");
      ("db", Opaque "app.db");
      ("UserMixin", Opaque "flask_login.UserMixin");
      ("User", Opaque "app.models.User");
      ("load_user", Opaque "app.models.load_user");
      ("Post", Opaque "app.models.Post") ]%string.

(** ** Instances in memory

    A method of [User] works on the instance [self] it is called on.  The
    instances live in a heap and are named by references, so that two uses
    of one reference see one object. *)

Definition ref := N.

Record Heap := {
  users : gmap ref User.t;
  posts : gmap ref Post.t;
}.

Definition set_users (us : gmap ref User.t) (h : Heap) : Heap :=
  {| users := us; posts := posts h |}.

(** The relationship [User.posts]: the posts whose [user_id] is the id of
    the user. *)
Definition User_posts (h : Heap) (u : User.t) : gmap ref Post.t :=
  filter (λ kv, Post.user_id kv.2 = User.id u) (posts h).

(** [self.password_hash] *)
Definition getattr_password_hash (self : ref) : M Heap (option string) :=
  λ h, match users h !! self with
       | Some u => (Return (User.password_hash u), h)
       | None => (Raise (AttributeError "password_hash"), h)
       end.

(** [self.password_hash = v] *)
Definition setattr_password_hash (self : ref) (v : option string) : M Heap unit :=
  λ h, match users h !! self with
       | Some u =>
           (Return tt, set_users (<[self := User.with_password_hash v u]> (users h)) h)
       | None => (Raise (AttributeError "password_hash"), h)
       end.

(** The attribute is mapped as [Optional[str]]: these are the values it
    takes.  (Line 39 assigns whatever the callable returns and a value of
    another type is refused only later, by the store; the attribute here is
    typed, and such a value is refused at the assignment.) *)
Definition as_optional_str (v : pyval) : result (option string) :=
  match v with
  | VNone => Return None
  | VStr s => Return (Some s)
  | _ => Raise (TypeError "password_hash: expected str or None")
  end.

Definition of_optional_str (o : option string) : pyval :=
  match o with
  | Some s => VStr s
  | None => VNone
  end.

(** [User.set_password], line 39:
    [self.password_hash = generate_password_hash(password)] *)
Definition set_password (globals : gmap string pyobj) (self : ref)
    (password : string) : M Heap unit :=
  f ← lift (resolve globals "generate_password_hash");
  v ← lift (call1 f (VStr password));
  h ← lift (as_optional_str v);
  setattr_password_hash self h.

(** [User.check_password], line 50:
    [return check_password_hash(self.password_hash, password)] *)
Definition check_password (globals : gmap string pyobj) (self : ref)
    (password : string) : M Heap pyval :=
  f ← lift (resolve globals "check_password_hash");
  h ← getattr_password_hash self;
  lift (call2 f (of_optional_str h) (VStr password)).

(** ** The stored rows *)

(** The two tables, and what the machine tells the time with: [clock] is
    the reading of the system clock in UTC, a reading that the passing of
    time moves forward and that an adjustment of the clock can set back;
    [local_offset] is the offset of the local zone of the machine. *)
Record World := {
  user_table : list User.t;
  post_table : list Post.t;
  clock : instant;
  local_offset : Z;
}.

Definition set_user_table (us : list User.t) (w : World) : World :=
  {| user_table := us; post_table := post_table w; clock := clock w;
     local_offset := local_offset w |}.
Definition set_post_table (ps : list Post.t) (w : World) : World :=
  {| user_table := user_table w; post_table := ps; clock := clock w;
     local_offset := local_offset w |}.
Definition set_clock (t : instant) (w : World) : World :=
  {| user_table := user_table w; post_table := post_table w; clock := t;
     local_offset := local_offset w |}.

Definition empty_world (t : instant) (offset : Z) : World :=
  {| user_table := []; post_table := []; clock := t; local_offset := offset |}.

(** [db.session.get(User, pk)]: the primary key of [User] is an integer. *)
Definition as_int (v : pyval) : result Z :=
  match v with
  | VInt n => Return n
  | VBool b => Return (if b then 1 else 0)
  | _ => Raise (TypeError "primary key identity: expected int")
  end.

(** The key is a parameter of the SELECT that [Session.get] issues. *)
Definition Session_get_User (pk : Z) : M World (option User.t) :=
  key ← lift (Storage.bind_int pk);
  gets (λ w, Storage.lookup User.columns key (user_table w)).

(** [load_user], line 71: [return db.session.get(User, int(id))] *)
Definition load_user (globals : gmap string pyobj) (id : string)
  : M World (option User.t) :=
  _ ← lift (resolve globals "db");
  _ ← lift (resolve globals "User");
  int ← lift (resolve globals "int");
  v ← lift (call1 int (VStr id));
  pk ← lift (as_int v);
  Session_get_User pk.

(** ** Operations of the store on the two tables

    The rows of [User] and [Post] are created, changed and removed by
    callers of the module; these are the INSERT, UPDATE and DELETE
    statements that reach the store, which applies the column declarations
    above.  The key of a new row is generated by the store, unless the
    caller gives one. *)

(** INSERT of a [User] row without a key: the store generates it. *)
Definition add_user (username email : string) (password_hash : option string)
  : M World User.t :=
  rows ← gets user_table;
  let u := {| User.id := Storage.next_id User.id rows;
              User.username := username; User.email := email;
              User.password_hash := password_hash |} in
  rows' ← lift (Storage.insert User.columns u rows);
  _ ← lift (Storage.generated (User.id u));
  _ ← modify (set_user_table rows');
  mret u.

(** INSERT of a [User] row with the key [id] given by the caller; the key
    is a parameter of the statement. *)
Definition add_user_with_id (id : Z) (username email : string)
    (password_hash : option string) : M World User.t :=
  key ← lift (Storage.bind_int id);
  rows ← gets user_table;
  let u := {| User.id := key; User.username := username; User.email := email;
              User.password_hash := password_hash |} in
  rows' ← lift (Storage.insert User.columns u rows);
  _ ← modify (set_user_table rows');
  mret u.

(** UPDATE of the row whose key is that of [u] with the values of [u], as
    the state of a changed [User] instance is written back; the key is a
    parameter of the statement. *)
Definition update_user (u : User.t) : M World unit :=
  key ← lift (Storage.bind_int (User.id u));
  rows ← gets user_table;
  rows' ← lift (Storage.update User.columns key u rows);
  modify (set_user_table rows').

(** DELETE of the [user] row with key [pk], as a statement handed to the
    store; the key is a parameter of the statement.  The rows of [post] are
    left as they are (the foreign key is not enforced).  This is not
    [session.delete(user)]: the unit of work cannot load the write-only
    collection of line 27 to detach the posts, raises and removes nothing,
    which leaves the world as it is. *)
Definition delete_user (pk : Z) : M World unit :=
  key ← lift (Storage.bind_int pk);
  rows ← gets user_table;
  modify (set_user_table (Storage.delete User.columns key rows)).

(** INSERT of a [Post] row without a key: the default of [timestamp] is
    called when no timestamp is supplied, [user_id] is a parameter of the
    statement, and the store generates the key. *)
Definition add_post (globals : gmap string pyobj) (body : string)
    (timestamp : option instant) (user_id : Z) : M World Post.t :=
  ts ← match timestamp with
       | Some t => mret t
       | None =>
           utc_now ← gets clock;
           offset ← gets local_offset;
           lift (Post.timestamp_default globals utc_now offset)
       end;
  author ← lift (Storage.bind_int user_id);
  rows ← gets post_table;
  let p := {| Post.id := Storage.next_id Post.id rows; Post.body := body;
              Post.timestamp := ts; Post.user_id := author |} in
  rows' ← lift (Storage.insert Post.columns p rows);
  _ ← lift (Storage.generated (Post.id p));
  _ ← modify (set_post_table rows');
  mret p.

(** INSERT of a [Post] row with the key [id] given by the caller. *)
Definition add_post_with_id (globals : gmap string pyobj) (id : Z)
    (body : string) (timestamp : option instant) (user_id : Z)
  : M World Post.t :=
  ts ← match timestamp with
       | Some t => mret t
       | None =>
           utc_now ← gets clock;
           offset ← gets local_offset;
           lift (Post.timestamp_default globals utc_now offset)
       end;
  key ← lift (Storage.bind_int id);
  author ← lift (Storage.bind_int user_id);
  rows ← gets post_table;
  let p := {| Post.id := key; Post.body := body; Post.timestamp := ts;
              Post.user_id := author |} in
  rows' ← lift (Storage.insert Post.columns p rows);
  _ ← modify (set_post_table rows');
  mret p.

(** What can happen to a world: the reading of the clock changes by [d]
    (time passes, or the clock is adjusted, forward or back), or one of the
    operations runs (an operation that raises leaves the world as it
    was). *)
Inductive op :=
| Tick (d : Z)
| AddUser (username email : string) (password_hash : option string)
| UpdateUser (u : User.t)
| DeleteUser (pk : Z)
| AddPost (body : string) (timestamp : option instant) (user_id : Z)
| LoadUser (id : string)
| AddUserWithId (id : Z) (username email : string)
    (password_hash : option string)
| AddPostWithId (id : Z) (body : string) (timestamp : option instant)
    (user_id : Z).

Definition step (globals : gmap string pyobj) (o : op) (w : World) : World :=
  match o with
  | Tick d => set_clock (clock w + d) w
  | AddUser username email password_hash =>
      (add_user username email password_hash w).2
  | UpdateUser u => (update_user u w).2
  | DeleteUser pk => (delete_user pk w).2
  | AddPost body timestamp user_id =>
      (add_post globals body timestamp user_id w).2
  | LoadUser id => (load_user globals id w).2
  | AddUserWithId id username email password_hash =>
      (add_user_with_id id username email password_hash w).2
  | AddPostWithId id body timestamp user_id =>
      (add_post_with_id globals id body timestamp user_id w).2
  end.

Definition run (globals : gmap string pyobj) (ops : list op) (w : World) : World :=
  fold_left (λ w o, step globals o w) ops w.

Definition reachable (globals : gmap string pyobj) (w : World) : Prop :=
  ∃ t offset ops, w = run globals ops (empty_world t offset).



(** No two rows of the [user] table share a key, a username or an email. *)
Definition users_distinct (rows : list User.t) : Prop :=
  NoDup (User.id <$> rows) ∧ NoDup (User.username <$> rows)
  ∧ NoDup (User.email <$> rows).

(** [u.set_password(p)] and then [u.check_password(p')] on the same
    instance. *)
Definition set_then_check (globals : gmap string pyobj) (self : ref)
    (p p' : string) : M Heap pyval :=
  _ ← set_password globals self p;
  check_password globals self p'.

(** A heap with one user, whose password was never set. *)
Definition ann : User.t :=
  {| User.id := 1; User.username := "ann"; User.email := "ann@example.org";
     User.password_hash := None |}.

Definition heap_ann : Heap := {| users := {[ 1%N := ann ]}; posts := ∅ |}.

(** A world whose [user] table holds that one user. *)
Definition world_ann : World :=
  {| user_table := [ann]; post_table := []; clock := 0; local_offset := 0 |}.

(** ** The rest of the module and what its callers use *)

(** [User.__repr__], line 31: ['<User {}>'.format(self.username)]; the one
    field of the template is replaced by the username. *)
Definition User__repr__ (u : User.t) : string :=
  "<User " +:+ User.username u +:+ ">".

(** [Post.__repr__], line 95: ['<Post {}>'.format(self.body)] *)
Definition Post__repr__ (p : Post.t) : string :=
  "<Post " +:+ Post.body p +:+ ">".

(** The built-in [str] on an [int]: the decimal numeral, with a minus sign
    for a negative number.  This is the text of a key that the login layer
    keeps in the session and hands to [load_user]. *)
Definition str_int (n : Z) : string := pretty n.

(** The identifiers whose numeral [int] reads back: those with at most
    [int_max_str_digits] digits. *)
Definition int_str_bound : Z := 10 ^ Z.of_N int_max_str_digits.

Fixpoint all_chars (q : ascii → bool) (s : string) : bool :=
  match s with
  | EmptyString => true
  | String c s' => q c && all_chars q s'
  end.

Definition is_digit (c : ascii) : bool :=
  ((48 <=? code c) && (code c <=? 57))%N.



Fixpoint digits_value (ds : string) (acc : Z) : Z :=
  match ds with
  | EmptyString => acc
  | String c r => digits_value r (10 * acc + (Z.of_N (code c) - 48))
  end.

(** The two sides of the relationship between [User] and [Post], declared
    on lines 27 and 92 over the foreign key [Post.user_id] of line 89:
    [post.author] is the user whose key is [post.user_id], and the select
    of the write-only collection [user.posts] gives the posts whose
    [user_id] is the key of the user. *)
Definition Post_author (p : Post.t) : M World (option User.t) :=
  Session_get_User (Post.user_id p).

Definition User_posts_select (u : User.t) : M World (list Post.t) :=
  gets (λ w, filter (λ p, Post.user_id p = User.id u) (post_table w)).

(** The operations that neither change nor remove a row of [user]. *)
Definition keeps_users (o : op) : bool :=
  match o with
  | UpdateUser _ | DeleteUser _ => false
  | _ => true
  end.

(** Stand-ins for two hashing callables, and globals that bind the two
    names to them on top of the names of the module. *)
Definition tagging_hash (v : pyval) : result pyval :=
  match v with
  | VStr p => Return (VStr ("tag$" +:+ p))
  | _ => Raise (TypeError "password must be a str")
  end.

Definition tagging_check (h p : pyval) : result pyval :=
  match h, p with
  | VStr h, VStr p => Return (VBool (bool_decide (h = "tag$" +:+ p)))
  | _, _ => Raise (AttributeError "count")
  end.

Definition globals_with_hashing : gmap string pyobj :=
  <["generate_password_hash"%string := Callable1 tagging_hash]>
    (<["check_password_hash"%string := Callable2 tagging_check]> models_globals).

(** A world with two users and a post of the first. *)
Definition bob : User.t :=
  {| User.id := 2; User.username := "bob"; User.email := "bob@example.org";
     User.password_hash := None |}.

Definition first_post : Post.t :=
  {| Post.id := 1; Post.body := "hi"; Post.timestamp := 0; Post.user_id := 1 |}.

Definition world_blog : World :=
  {| user_table := [ann; bob]; post_table := [first_post]; clock := 0;
     local_offset := 0 |}.


(** * Properties *)

Ltac unfold_M :=
  unfold mbind, M_bind, bind, mret, M_ret, ret, lift, gets, modify in *.


(** ** The monad *)

Lemma bind_Return {S A B} (m : M S A) (k : A → M S B) s a s' :
  m s = (Return a, s') → (m ≫= k) s = k a s'.
Proof. intros H. unfold mbind, M_bind, bind. by rewrite H. Qed.

Lemma bind_Raise {S A B} (m : M S A) (k : A → M S B) s e s' :
  m s = (Raise e, s') → (m ≫= k) s = (Raise e, s').
Proof. intros H. unfold mbind, M_bind, bind. by rewrite H. Qed.

(** ** Lists of rows *)

Section Rows.
Context {R K : Type} (f : R → K).

Lemma NoDup_fmap_eq (rows : list R) (x y : R) :
  NoDup (f <$> rows) → x ∈ rows → y ∈ rows → f x = f y → x = y.
Proof.
  induction rows as [|r rows IH]; intros Hnd Hx Hy Hf.
  - by apply not_elem_of_nil in Hx.
  - rewrite fmap_cons in Hnd. apply NoDup_cons in Hnd as [Hr Hnd].
    apply elem_of_cons in Hx as [->|Hx]; apply elem_of_cons in Hy as [->|Hy].
    + done.
    + exfalso. apply Hr. rewrite Hf. by apply list_elem_of_fmap_2.
    + exfalso. apply Hr. rewrite <- Hf. by apply list_elem_of_fmap_2.
    + by apply IH.
Qed.

Lemma NoDup_fmap_snoc (rows : list R) (new : R) :
  NoDup (f <$> rows) → (∀ old, old ∈ rows → f old ≠ f new) →
  NoDup (f <$> (rows ++ [new])).
Proof.
  intros Hnd Hnew. rewrite fmap_app. apply NoDup_app. split; [done|]. split.
  - intros k Hk Hin. apply list_elem_of_fmap in Hk as (old & -> & Hold).
    simpl in Hin. apply list_elem_of_singleton in Hin. by apply (Hnew old).
  - simpl. apply NoDup_singleton.
Qed.

Lemma NoDup_fmap_filter (P : R → Prop) `{!∀ r, Decision (P r)} (rows : list R) :
  NoDup (f <$> rows) → NoDup (f <$> filter P rows).
Proof.
  intros Hnd. eapply sublist_NoDup; [exact Hnd|].
  apply fmap_sublist, sublist_filter.
Qed.

(** Putting [new] in the place of the rows chosen by [p], when no row
    left in place agrees with [new] on [f] and at most one row is
    chosen. *)
Lemma NoDup_fmap_replace (p : R → bool) (rows : list R) (new : R) :
  NoDup (f <$> rows) →
  (∀ x y, x ∈ rows → y ∈ rows → p x = true → p y = true → x = y) →
  (∀ old, old ∈ rows → p old = false → f old ≠ f new) →
  NoDup (f <$> ((λ r, if p r then new else r) <$> rows)).
Proof.
  induction rows as [|r rows IH]; intros Hnd Hone Hnew; [constructor|].
  rewrite !fmap_cons. rewrite fmap_cons in Hnd.
  apply NoDup_cons in Hnd as [Hr Hnd].
  assert (Hrest : NoDup (f <$> ((λ r, if p r then new else r) <$> rows))).
  { apply IH; [done| |].
    - intros x y Hx Hy. apply Hone; by apply list_elem_of_further.
    - intros old Hold. apply Hnew. by apply list_elem_of_further. }
  apply NoDup_cons. split; [|done].
  intros Hin. apply list_elem_of_fmap in Hin as (z & Hz & Hin).
  apply list_elem_of_fmap in Hin as (r' & -> & Hr').
  destruct (p r) eqn:Hpr; destruct (p r') eqn:Hpr'.
  - apply Hr. rewrite (Hone r r'); [by apply list_elem_of_fmap_2| | |done|done].
    + apply list_elem_of_here.
    + by apply list_elem_of_further.
  - apply (Hnew r'); [by apply list_elem_of_further|done|done].
  - apply (Hnew r); [apply list_elem_of_here|done|done].
  - apply Hr. rewrite Hz. by apply list_elem_of_fmap_2.
Qed.
End Rows.

(** ** The checks of the store *)

Section Checks.
Context {R : Type} (cols : list (Storage.Column R)).

Lemma clashes_false (c : Storage.Column R) (new old : R) :
  Storage.clashes c new old = false →
  Storage.must_be_unique c = true → Storage.get c new ≠ Storage.Null →
  Storage.get c old ≠ Storage.get c new.
Proof.
  unfold Storage.clashes, Storage.is_null. intros Hc Hu Hnn Heq.
  rewrite Hu, (bool_decide_eq_false_2 _ Hnn) in Hc.
  by rewrite (bool_decide_eq_true_2 _ Heq) in Hc.
Qed.

Lemma clashes_true (c : Storage.Column R) (new old : R) :
  Storage.must_be_unique c = true → Storage.get c new ≠ Storage.Null →
  Storage.get c old = Storage.get c new →
  Storage.clashes c new old = true.
Proof.
  unfold Storage.clashes, Storage.is_null. intros -> Hnn Heq.
  by rewrite (bool_decide_eq_false_2 _ Hnn), (bool_decide_eq_true_2 _ Heq).
Qed.

Lemma existsb_false {A} (q : A → bool) (l : list A) (x : A) :
  existsb q l = false → x ∈ l → q x = false.
Proof.
  intros He Hx. destruct (q x) eqn:Hq; [|done].
  rewrite <- He. symmetry. apply existsb_exists. exists x.
  split; [by apply list_elem_of_In|done].
Qed.

Lemma existsb_true {A} (q : A → bool) (l : list A) (x : A) :
  x ∈ l → q x = true → existsb q l = true.
Proof.
  intros Hx Hq. apply existsb_exists. exists x.
  split; [by apply list_elem_of_In|done].
Qed.

(** A row that passes the checks differs from every stored row on every
    column that is declared unique or a primary key. *)
Lemma check_Return (rows : list R) (new : R) (c : Storage.Column R) (old : R) :
  Storage.check cols rows new = Return tt →
  c ∈ cols → Storage.must_be_unique c = true →
  Storage.get c new ≠ Storage.Null →
  old ∈ rows → Storage.get c old ≠ Storage.get c new.
Proof.
  unfold Storage.check, Storage.violated_unique.
  destruct (Storage.violated_not_null cols new); [done|].
  destruct (find _ cols) as [c'|] eqn:Hfind; [done|].
  intros _ Hc Hu Hnn Hold.
  apply clashes_false; [|done|done].
  apply (existsb_false _ rows); [|done].
  apply (find_none _ _ Hfind). by apply list_elem_of_In.
Qed.

(** A row that agrees with a stored row on such a column is refused. *)
Lemma check_clash (rows : list R) (new : R) (c : Storage.Column R) (old : R) :
  c ∈ cols → Storage.must_be_unique c = true →
  Storage.get c new ≠ Storage.Null →
  old ∈ rows → Storage.get c old = Storage.get c new →
  ∃ msg, Storage.check cols rows new = Raise (IntegrityError msg).
Proof.
  intros Hc Hu Hnn Hold Heq. unfold Storage.check, Storage.violated_unique.
  destruct (Storage.violated_not_null cols new); [by eexists|].
  destruct (find _ cols) as [c'|] eqn:Hfind; [by eexists|].
  exfalso. apply list_elem_of_In in Hc.
  pose proof (find_none _ _ Hfind c Hc) as Hno. simpl in Hno.
  rewrite (existsb_true _ rows old) in Hno; [done|done|].
  by apply clashes_true.
Qed.
End Checks.

Lemma fold_max_bound (a : Z) (l : list Z) :
  a ≤ fold_right Z.max a l ∧ ∀ z, z ∈ l → z ≤ fold_right Z.max a l.
Proof.
  induction l as [|y l [IHa IHl]]; cbn [fold_right].
  - split; [lia|]. intros z Hz. by apply not_elem_of_nil in Hz.
  - split; [lia|]. intros z [->|Hz]%elem_of_cons; [lia|].
    specialize (IHl z Hz). lia.
Qed.

Lemma next_id_fresh {R} (id : R → Z) (rows : list R) (r : R) :
  r ∈ rows → id r < Storage.next_id id rows.
Proof.
  unfold Storage.next_id. destruct rows as [|x rows]; intros Hr.
  - by apply not_elem_of_nil in Hr.
  - destruct (fold_max_bound (id x) (id <$> rows)) as [Hx Hrows].
    apply elem_of_cons in Hr as [->|Hr]; [lia|].
    specialize (Hrows (id r) (list_elem_of_fmap_2 id _ _ Hr)). lia.
Qed.

(** ** The [user] table *)

Lemma user_has_key (pk : Z) (u : User.t) :
  Storage.has_key User.columns pk u = bool_decide (User.id u = pk).
Proof.
  unfold Storage.has_key.
  change (Storage.key User.columns u) with [Storage.Int (User.id u)].
  destruct (decide (User.id u = pk)) as [->|Hne].
  - by rewrite !bool_decide_eq_true_2.
  - rewrite !bool_decide_eq_false_2; [done|done|]. intros [=]. done.
Qed.

Lemma user_check_Return (rows : list User.t) (u old : User.t) :
  Storage.check User.columns rows u = Return tt → old ∈ rows →
  User.id old ≠ User.id u ∧ User.username old ≠ User.username u
  ∧ User.email old ≠ User.email u.
Proof.
  intros Hcheck Hold. repeat split; intros Heq.
  - eapply (check_Return User.columns rows u User.id_column old);
      [done|unfold User.columns; set_solver|done|done|done|cbn; by rewrite Heq].
  - eapply (check_Return User.columns rows u User.username_column old);
      [done|unfold User.columns; set_solver|done|done|done|cbn; by rewrite Heq].
  - eapply (check_Return User.columns rows u User.email_column old);
      [done|unfold User.columns; set_solver|done|done|done|cbn; by rewrite Heq].
Qed.

Lemma user_insert_distinct (rows rows' : list User.t) (u : User.t) :
  users_distinct rows → Storage.insert User.columns u rows = Return rows' →
  users_distinct rows'.
Proof.
  intros (Hid & Hname & Hmail). unfold Storage.insert.
  destruct (Storage.check User.columns rows u) as [[]|e] eqn:Hcheck; [|done].
  cbn. intros [= <-].
  repeat split; apply NoDup_fmap_snoc; try done;
    intros old Hold; by destruct (user_check_Return _ _ _ Hcheck Hold) as (? & ? & ?).
Qed.

Lemma user_update_distinct (rows rows' : list User.t) (u : User.t) :
  users_distinct rows →
  Storage.update User.columns (User.id u) u rows = Return rows' →
  users_distinct rows'.
Proof.
  intros (Hid & Hname & Hmail). unfold Storage.update.
  destruct (existsb _ rows); [|by intros [= <-]].
  destruct (Storage.check User.columns _ u) as [[]|e] eqn:Hcheck; [|done].
  cbn. intros [= <-].
  assert (Hone : ∀ x y, x ∈ rows → y ∈ rows →
            Storage.has_key User.columns (User.id u) x = true →
            Storage.has_key User.columns (User.id u) y = true → x = y).
  { intros x y Hx Hy. rewrite !user_has_key.
    intros Hkx%bool_decide_eq_true_1 Hky%bool_decide_eq_true_1.
    apply (NoDup_fmap_eq User.id rows); [done|done|done|congruence]. }
  assert (Hnew : ∀ old, old ∈ rows →
            Storage.has_key User.columns (User.id u) old = false →
            User.id old ≠ User.id u ∧ User.username old ≠ User.username u
            ∧ User.email old ≠ User.email u).
  { intros old Hold Hk. apply (user_check_Return _ _ _ Hcheck).
    by apply list_elem_of_filter. }
  repeat split; apply NoDup_fmap_replace; try done;
    intros old Hold Hk; by destruct (Hnew old Hold Hk) as (? & ? & ?).
Qed.

Lemma user_delete_distinct (rows : list User.t) (pk : Z) :
  users_distinct rows → users_distinct (Storage.delete User.columns pk rows).
Proof.
  intros (Hid & Hname & Hmail). unfold Storage.delete.
  repeat split; by apply NoDup_fmap_filter.
Qed.

(** ** Names of the module *)

Lemma resolve_db : resolve models_globals "db" = Return (Opaque "app.db").
Proof. reflexivity. Qed.

Lemma resolve_User : resolve models_globals "User" = Return (Opaque "app.models.User").
Proof. reflexivity. Qed.

Lemma resolve_int : resolve models_globals "int" = Return (Callable1 int).
Proof. reflexivity. Qed.

Lemma resolve_datetime :
  resolve models_globals "datetime" = Return (Opaque "datetime.datetime").
Proof. reflexivity. Qed.

Lemma resolve_timezone :
  resolve models_globals "timezone" = Return (Opaque "datetime.timezone").
Proof. reflexivity. Qed.

Lemma resolve_generate_password_hash :
  resolve models_globals "generate_password_hash"
  = Raise (NameError "generate_password_hash").
Proof. reflexivity. Qed.

Lemma resolve_check_password_hash :
  resolve models_globals "check_password_hash"
  = Raise (NameError "check_password_hash").
Proof. reflexivity. Qed.

(** ** [load_user] *)

(** With the names of the module, [load_user] reads the identifier with
    [int] and looks the key up, if the store takes the key; the world stays
    as it is. *)
Lemma load_user_eval (id : string) (w : World) :
  load_user models_globals id w =
  match int_of_str id with
  | Return pk =>
      if Storage.in_range pk
      then (Return (Storage.lookup User.columns pk (user_table w)), w)
      else (Raise Storage.overflow, w)
  | Raise e => (Raise e, w)
  end.
Proof.
  unfold load_user, Session_get_User, Storage.bind_int. unfold_M.
  rewrite resolve_db, resolve_User, resolve_int. cbn [call1 int].
  unfold mbind, result_bind, rbind. destruct (int_of_str id) as [pk|e]; [|done].
  cbn. by destruct (Storage.in_range pk).
Qed.

(** Whatever the names are bound to, [load_user] writes nothing. *)
Lemma load_user_state (globals : gmap string pyobj) (id : string) (w : World) :
  (load_user globals id w).2 = w.
Proof.
  unfold load_user, Session_get_User. unfold_M.
  repeat match goal with
         | |- context [match ?r with Return _ => _ | Raise _ => _ end] =>
             destruct r; try done
         end.
Qed.

(** ** What the operations of the store come to *)

Lemma add_user_eval (username email : string) (password_hash : option string)
    (w : World) :
  let u := {| User.id := Storage.next_id User.id (user_table w);
              User.username := username; User.email := email;
              User.password_hash := password_hash |} in
  add_user username email password_hash w =
  match Storage.insert User.columns u (user_table w) with
  | Return rows' =>
      if User.id u <=? Storage.max_int
      then (Return u, set_user_table rows' w)
      else (Raise (OperationalError "database or disk is full"), w)
  | Raise e => (Raise e, w)
  end.
Proof.
  intros u. unfold add_user, Storage.generated. unfold_M. fold u.
  destruct (Storage.insert User.columns u (user_table w)); [|done].
  by destruct (User.id u <=? Storage.max_int).
Qed.

Lemma update_user_eval (u : User.t) (w : World) :
  update_user u w =
  if Storage.in_range (User.id u) then
    match Storage.update User.columns (User.id u) u (user_table w) with
    | Return rows' => (Return tt, set_user_table rows' w)
    | Raise e => (Raise e, w)
    end
  else (Raise Storage.overflow, w).
Proof.
  unfold update_user, Storage.bind_int. unfold_M.
  destruct (Storage.in_range (User.id u)); [|done].
  by destruct (Storage.update _ _ _ _).
Qed.

Lemma delete_user_eval (pk : Z) (w : World) :
  delete_user pk w =
  if Storage.in_range pk
  then (Return tt, set_user_table (Storage.delete User.columns pk (user_table w)) w)
  else (Raise Storage.overflow, w).
Proof.
  unfold delete_user, Storage.bind_int. unfold_M.
  by destruct (Storage.in_range pk).
Qed.

Lemma add_user_with_id_eval (id : Z) (username email : string)
    (password_hash : option string) (w : World) :
  let u := {| User.id := id; User.username := username; User.email := email;
              User.password_hash := password_hash |} in
  add_user_with_id id username email password_hash w =
  if Storage.in_range id then
    match Storage.insert User.columns u (user_table w) with
    | Return rows' => (Return u, set_user_table rows' w)
    | Raise e => (Raise e, w)
    end
  else (Raise Storage.overflow, w).
Proof.
  intros u. unfold add_user_with_id, Storage.bind_int. unfold_M.
  destruct (Storage.in_range id); [|done]. cbn. fold u.
  by destruct (Storage.insert User.columns u (user_table w)).
Qed.

(** Whatever the names are bound to, creating a post leaves the users and
    the clock as they are. *)
Lemma add_post_frame (globals : gmap string pyobj) (body : string)
    (timestamp : option instant) (user_id : Z) (w : World) :
  user_table (add_post globals body timestamp user_id w).2 = user_table w
  ∧ clock (add_post globals body timestamp user_id w).2 = clock w
  ∧ local_offset (add_post globals body timestamp user_id w).2 = local_offset w.
Proof.
  unfold add_post, Post.timestamp_default, Storage.bind_int, Storage.generated.
  unfold_M.
  destruct timestamp as [t|]; cbn;
    repeat match goal with
           | |- context [match ?r with Return _ => _ | Raise _ => _ end] =>
               destruct r; cbn; try done
           | |- context [if ?b then _ else _] => destruct b; cbn; try done
           end.
Qed.

Lemma add_post_with_id_frame (globals : gmap string pyobj) (id : Z)
    (body : string) (timestamp : option instant) (user_id : Z) (w : World) :
  user_table (add_post_with_id globals id body timestamp user_id w).2
  = user_table w
  ∧ clock (add_post_with_id globals id body timestamp user_id w).2 = clock w
  ∧ local_offset (add_post_with_id globals id body timestamp user_id w).2
    = local_offset w.
Proof.
  unfold add_post_with_id, Post.timestamp_default, Storage.bind_int.
  unfold_M.
  destruct timestamp as [t|]; cbn;
    repeat match goal with
           | |- context [match ?r with Return _ => _ | Raise _ => _ end] =>
               destruct r; cbn; try done
           | |- context [if ?b then _ else _] => destruct b; cbn; try done
           end.
Qed.

Lemma lookup_Some (pk : Z) (rows : list User.t) (u : User.t) :
  Storage.lookup User.columns pk rows = Some u → u ∈ rows ∧ User.id u = pk.
Proof.
  unfold Storage.lookup. intros [Hin Hk]%find_some.
  rewrite user_has_key in Hk. apply bool_decide_eq_true_1 in Hk.
  split; [by apply list_elem_of_In|done].
Qed.

Lemma lookup_None (pk : Z) (rows : list User.t) (u : User.t) :
  Storage.lookup User.columns pk rows = None → u ∈ rows → User.id u ≠ pk.
Proof.
  unfold Storage.lookup. intros Hnone Hin%list_elem_of_In.
  pose proof (find_none _ _ Hnone u Hin) as Hk.
  rewrite user_has_key in Hk. by apply bool_decide_eq_false_1 in Hk.
Qed.

(** ** Runs of the store *)

Lemma step_users_distinct (globals : gmap string pyobj) (o : op) (w : World) :
  users_distinct (user_table w) →
  users_distinct (user_table (step globals o w)).
Proof.
  intros Hinv. destruct o as [d|username email h|u|pk|body ts uid|id|k username email h|k body ts uid]; cbn [step].
  - done.
  - rewrite add_user_eval.
    destruct (Storage.insert _ _ _) as [rows'|e] eqn:Hins; [|done].
    destruct (_ <=? _); [|done].
    cbn. by eapply user_insert_distinct.
  - rewrite update_user_eval. destruct (Storage.in_range _); [|done].
    destruct (Storage.update _ _ _ _) as [rows'|e] eqn:Hupd; [|done].
    cbn. by eapply user_update_distinct.
  - rewrite delete_user_eval. destruct (Storage.in_range _); [|done].
    cbn. by apply user_delete_distinct.
  - by rewrite (proj1 (add_post_frame globals body ts uid w)).
  - by rewrite load_user_state.
  - rewrite add_user_with_id_eval. destruct (Storage.in_range k); [|done].
    destruct (Storage.insert _ _ _) as [rows'|e] eqn:Hins; [|done].
    cbn. by eapply user_insert_distinct.
  - by rewrite (proj1 (add_post_with_id_frame globals k body ts uid w)).
Qed.

Lemma run_users_distinct (globals : gmap string pyobj) (ops : list op) (w : World) :
  users_distinct (user_table w) →
  users_distinct (user_table (run globals ops w)).
Proof.
  unfold run. revert w. induction ops as [|o ops IH]; intros w Hinv; [done|].
  cbn [fold_left]. apply IH. by apply step_users_distinct.
Qed.

Lemma reachable_users_distinct (globals : gmap string pyobj) (w : World) :
  reachable globals w → users_distinct (user_table w).
Proof.
  intros (t & offset & ops & ->). apply run_users_distinct.
  repeat split; constructor.
Qed.

(** ** The credential methods *)

(** Where the two names are bound to callables, the body of
    [set_password] stores what the first returns and the body of
    [check_password] hands the stored value and the candidate to the
    second: the methods are wrappers, and nothing but the binding of the
    names is needed for them to run. *)
Section Imported.
Variable globals : gmap string pyobj.
Variable gen : pyval → result pyval.
Variable chk : pyval → pyval → result pyval.
Hypothesis gen_bound : globals !! "generate_password_hash"%string = Some (Callable1 gen).
Hypothesis chk_bound : globals !! "check_password_hash"%string = Some (Callable2 chk).

Lemma set_password_imported (self : ref) (u : User.t) (p hash : string) (h : Heap) :
  users h !! self = Some u → gen (VStr p) = Return (VStr hash) →
  set_password globals self p h
  = (Return tt,
     set_users (<[self := User.with_password_hash (Some hash) u]> (users h)) h).
Proof.
  intros Hu Hgen. unfold set_password, setattr_password_hash, resolve. unfold_M.
  rewrite gen_bound. cbn [call1]. rewrite Hgen. cbn. by rewrite Hu.
Qed.

Lemma check_password_imported (self : ref) (u : User.t) (p : string) (h : Heap) :
  users h !! self = Some u →
  check_password globals self p h
  = (chk (of_optional_str (User.password_hash u)) (VStr p), h).
Proof.
  intros Hu. unfold check_password, getattr_password_hash, resolve. unfold_M.
  rewrite chk_bound. by rewrite Hu.
Qed.

Lemma set_then_check_imported (self : ref) (u : User.t) (p p' hash : string) (h : Heap) :
  users h !! self = Some u → gen (VStr p) = Return (VStr hash) →
  (set_then_check globals self p p' h).1 = chk (VStr hash) (VStr p').
Proof.
  intros Hu Hgen. unfold set_then_check.
  rewrite (bind_Return _ _ _ _ _ (set_password_imported self u p hash h Hu Hgen)).
  rewrite (check_password_imported self (User.with_password_hash (Some hash) u));
    [done|].
  cbn. by rewrite lookup_insert_eq.
Qed.
End Imported.

(** [setattr] on [password_hash] writes that one attribute of that one
    instance. *)
Lemma setattr_password_hash_frame (self : ref) (v : option string) (h : Heap) :
  let h' := (setattr_password_hash self v h).2 in
  posts h' = posts h
  ∧ (∀ r, r ≠ self → users h' !! r = users h !! r)
  ∧ User.id <$> users h' !! self = User.id <$> users h !! self
  ∧ User.username <$> users h' !! self = User.username <$> users h !! self
  ∧ User.email <$> users h' !! self = User.email <$> users h !! self.
Proof.
  unfold setattr_password_hash. destruct (users h !! self) as [u|] eqn:Hu; cbn.
  - split; [done|]. split; [intros r Hr; by rewrite lookup_insert_ne|].
    by rewrite lookup_insert_eq.
  - by rewrite Hu.
Qed.

(** C9: The names [generate_password_hash] and [check_password_hash] are
    bound neither in the globals of the module nor among the built-ins, so
    every call of [set_password] and every call of [check_password], on any
    instance, with any password and in any heap, raises [NameError] on the
    name; the heap is as before, so nothing was hashed, compared or
    stored. *)
Theorem hashing_names_unbound (self : ref) (password : string) (h : Heap) :
  models_globals !! "generate_password_hash"%string = None
  ∧ models_globals !! "check_password_hash"%string = None
  ∧ builtins !! "generate_password_hash"%string = None
  ∧ builtins !! "check_password_hash"%string = None
  ∧ set_password models_globals self password h
    = (Raise (NameError "generate_password_hash"), h)
  ∧ check_password models_globals self password h
    = (Raise (NameError "check_password_hash"), h).
Proof.
  split; [reflexivity|]. split; [reflexivity|].
  split; [reflexivity|]. split; [reflexivity|]. split.
  - unfold set_password. unfold_M. by rewrite resolve_generate_password_hash.
  - unfold check_password. unfold_M. by rewrite resolve_check_password_hash.
Qed.

(** C1: setting the password "secret" of a user and then checking
    "secret" on the same user does not return true: the first call already
    raises [NameError] on [generate_password_hash]. *)
Example set_then_check_raises :
  set_then_check models_globals 1%N "secret" "secret" heap_ann
  = (Raise (NameError "generate_password_hash"), heap_ann).
Proof. reflexivity. Qed.

(** C2: on a user whose [password_hash] was never set, [check_password]
    raises, but the failure is the [NameError] on [check_password_hash]
    raised in the body of the method, not a failure of a hashing
    primitive. *)
Example check_password_unset_raises_NameError :
  User.password_hash <$> users heap_ann !! 1%N = Some None
  ∧ check_password models_globals 1%N "secret" heap_ann
    = (Raise (NameError "check_password_hash"), heap_ann).
Proof. split; reflexivity. Qed.

(** C7: after [set_password] with "secret" on a user without a password,
    the call has raised and the user still has no [password_hash]: no hash
    of the password is stored. *)
Example set_password_stores_nothing :
  (set_password models_globals 1%N "secret" heap_ann).1
  = Raise (NameError "generate_password_hash")
  ∧ User.password_hash
      <$> users (set_password models_globals 1%N "secret" heap_ann).2 !! 1%N
    = Some None.
Proof. vm_compute. split; reflexivity. Qed.

(** C10: [set_password] writes at most the attribute [password_hash] of
    the instance it is called on.  Whatever the names of the module are
    bound to, after the call the posts in memory are the same, every other
    user is the same, and [id], [username], [email] and the [posts]
    relationship of the instance itself are the same. *)
Theorem set_password_frame (globals : gmap string pyobj) (self : ref)
    (password : string) (h : Heap) :
  let h' := (set_password globals self password h).2 in
  posts h' = posts h
  ∧ (∀ r, r ≠ self → users h' !! r = users h !! r)
  ∧ User.id <$> users h' !! self = User.id <$> users h !! self
  ∧ User.username <$> users h' !! self = User.username <$> users h !! self
  ∧ User.email <$> users h' !! self = User.email <$> users h !! self
  ∧ User_posts h' <$> users h' !! self = User_posts h <$> users h !! self.
Proof.
  assert (Hsame : ∀ h0 : Heap,
    posts h0 = posts h0 ∧ (∀ r, r ≠ self → users h0 !! r = users h0 !! r)
    ∧ User.id <$> users h0 !! self = User.id <$> users h0 !! self
    ∧ User.username <$> users h0 !! self = User.username <$> users h0 !! self
    ∧ User.email <$> users h0 !! self = User.email <$> users h0 !! self
    ∧ User_posts h0 <$> users h0 !! self = User_posts h0 <$> users h0 !! self)
    by done.
  unfold set_password. unfold_M.
  destruct (resolve globals "generate_password_hash") as [f|e]; [|apply Hsame].
  destruct (call1 f (VStr password)) as [v|e]; [|apply Hsame].
  destruct (as_optional_str v) as [o|e]; [|apply Hsame].
  destruct (setattr_password_hash_frame self o h) as (Hp & Hother & Hid & Hname & Hmail).
  cbn zeta in *. repeat split; try done.
  destruct (users (setattr_password_hash self o h).2 !! self) as [u'|] eqn:Hu';
    destruct (users h !! self) as [u|] eqn:Hu; try done.
  cbn in *. f_equal. unfold User_posts. rewrite Hp.
  injection Hid as Hid. by rewrite Hid.
Qed.

(** ** The login callback *)

Example int_of_str_decimal : int_of_str "42" = Return 42.
Proof. reflexivity. Qed.

Example int_of_str_signed_spaced_grouped : int_of_str " -1_000 " = Return (-1000).
Proof. reflexivity. Qed.

Example int_of_str_leading_zeros : int_of_str "007" = Return 7.
Proof. reflexivity. Qed.

Example int_of_str_letters : int_of_str "abc" = Raise invalid_literal.
Proof. reflexivity. Qed.

Example int_of_str_empty : int_of_str "" = Raise invalid_literal.
Proof. reflexivity. Qed.

Example int_of_str_double_underscore : int_of_str "1__0" = Raise invalid_literal.
Proof. reflexivity. Qed.

Example int_of_str_sign_then_space : int_of_str "- 1" = Raise invalid_literal.
Proof. reflexivity. Qed.

Example int_of_str_fraction : int_of_str "1.0" = Raise invalid_literal.
Proof. reflexivity. Qed.

(** [int] on a [str] fails with [ValueError] and nothing else. *)
Lemma int_of_str_Raise (s : string) (e : exn) :
  int_of_str s = Raise e → ∃ msg, e = ValueError msg.
Proof.
  unfold int_of_str, PyLong_FromString.
  generalize (skip_space (TransformDecimalAndSpaceToASCII s)). intros s1.
  destruct (if starts_with "+" s1 then _ else _) as [sign s2].
  destruct (starts_with "_" s2); [intros [= <-]; by eexists|].
  destruct (scan_digits s2 false 0%N 0) as [[[digits acc] rest]|];
    [|intros [= <-]; by eexists].
  destruct (int_max_str_digits <? digits)%N; [intros [= <-]; by eexists|].
  destruct (digits =? 0)%N; [intros [= <-]; by eexists|].
  destruct (skip_space rest); [done|intros [= <-]; by eexists].
Qed.

(** An identifier that [int] reads as an integer outside the range of the
    store is not looked up: the driver refuses the key and [load_user]
    raises [OverflowError]. *)
Lemma load_user_out_of_range (id : string) (pk : Z) (w : World) :
  int_of_str id = Return pk → Storage.in_range pk = false →
  load_user models_globals id w = (Raise Storage.overflow, w).
Proof. intros Hint Hout. by rewrite load_user_eval, Hint, Hout. Qed.

(** C3, as stated, fails: the identifier "9223372036854775808" is read by
    [int] as the integer 2^63, no user has that key, and yet [load_user]
    does not return [None]: it raises [OverflowError]. *)
Lemma load_user_absent_key_raises :
  int_of_str "9223372036854775808" = Return (2 ^ 63)
  ∧ (∀ u, u ∈ user_table world_ann → User.id u ≠ 2 ^ 63)
  ∧ load_user models_globals "9223372036854775808" world_ann
    = (Raise Storage.overflow, world_ann)
  ∧ load_user models_globals "9223372036854775808" world_ann
    ≠ (Return None, world_ann).
Proof.
  assert (Hint : int_of_str "9223372036854775808" = Return (2 ^ 63))
    by (vm_compute; reflexivity).
  assert (Hrun : load_user models_globals "9223372036854775808" world_ann
                 = (Raise Storage.overflow, world_ann)).
  { apply (load_user_out_of_range _ (2 ^ 63)); [done|]. vm_compute. reflexivity. }
  split; [done|]. split; [|split; [done|]].
  - intros u Hu. apply list_elem_of_singleton in Hu as ->. discriminate.
  - rewrite Hrun. discriminate.
Qed.

(** C3, amended: for an identifier that [int] reads as an integer [pk]
    within the signed 64-bit range of the keys of the store, [load_user]
    returns, and leaves the world as it is.  When the [user] table has a
    row with key [pk] it returns a row of the table with key [pk], which is
    that very row since keys are not shared; when the table has no such row
    it returns [None]. *)
Theorem load_user_found_or_absent (id : string) (pk : Z) (w : World) :
  int_of_str id = Return pk → Storage.in_range pk = true →
  ∃ r, load_user models_globals id w = (Return r, w)
    ∧ (∀ u, u ∈ user_table w → User.id u = pk →
         ∃ u', r = Some u' ∧ u' ∈ user_table w ∧ User.id u' = pk
               ∧ (users_distinct (user_table w) → u' = u))
    ∧ ((∀ u, u ∈ user_table w → User.id u ≠ pk) → r = None).
Proof.
  intros Hint Hrange. rewrite load_user_eval, Hint, Hrange.
  exists (Storage.lookup User.columns pk (user_table w)). split; [done|].
  destruct (Storage.lookup User.columns pk (user_table w)) as [u'|] eqn:Hget; split.
  - intros u Hu Hid. destruct (lookup_Some _ _ _ Hget) as [Hu' Hid'].
    exists u'. repeat split; try done.
    intros (Hnd & _). apply (NoDup_fmap_eq User.id (user_table w)); try done.
    congruence.
  - intros Hnone. destruct (lookup_Some _ _ _ Hget) as [Hu' Hid'].
    by destruct (Hnone u' Hu').
  - intros u Hu Hid. by destruct (lookup_None _ _ u Hget Hu).
  - done.
Qed.

Lemma load_user_found_or_absent_witness :
  ∃ r, load_user models_globals "1" world_ann = (Return r, world_ann)
    ∧ (∀ u, u ∈ user_table world_ann → User.id u = 1 →
         ∃ u', r = Some u' ∧ u' ∈ user_table world_ann ∧ User.id u' = 1
               ∧ (users_distinct (user_table world_ann) → u' = u))
    ∧ ((∀ u, u ∈ user_table world_ann → User.id u ≠ 1) → r = None).
Proof.
  apply (load_user_found_or_absent "1" 1 world_ann); reflexivity.
Defined.

(** C4: for an identifier that [int] does not read as an integer,
    [load_user] raises the [ValueError] of [int] itself: the failure goes to
    the caller, no value is returned and the world is as it was. *)
Theorem load_user_parse_failure (id : string) (e : exn) (w : World) :
  int_of_str id = Raise e →
  load_user models_globals id w = (Raise e, w) ∧ ∃ msg, e = ValueError msg.
Proof.
  intros Hint. split.
  - by rewrite load_user_eval, Hint.
  - by apply (int_of_str_Raise id).
Qed.

Lemma load_user_parse_failure_witness :
  load_user models_globals "abc" world_ann = (Raise invalid_literal, world_ann)
  ∧ ∃ msg, invalid_literal = ValueError msg.
Proof. apply (load_user_parse_failure "abc" invalid_literal world_ann). reflexivity. Defined.

(** C8: [load_user] reads only.  For every identifier and every world, a
    call leaves the world as it was, so the rows of [user] and of [post]
    are the same, and a second call gives the result of the first (be it a
    row, [None] or the exception). *)
Theorem load_user_idempotent_read_only (id : string) (w : World) :
  ∃ r, load_user models_globals id w = (r, w)
    ∧ (load_user models_globals id ;; load_user models_globals id) w
      = load_user models_globals id w
    ∧ user_table (load_user models_globals id w).2 = user_table w
    ∧ post_table (load_user models_globals id w).2 = post_table w.
Proof.
  pose proof (load_user_state models_globals id w) as Hw.
  destruct (load_user models_globals id w) as [r w'] eqn:Hrun. cbn in Hw. subst w'.
  exists r. split; [done|]. split; [|done].
  destruct r as [u|e].
  - by rewrite (bind_Return _ _ _ _ _ Hrun).
  - by rewrite (bind_Raise _ _ _ _ _ Hrun).
Qed.


(** ** Uniqueness of usernames and emails *)

Lemma existsb_none {A} (q : A → bool) (l : list A) :
  (∀ x, x ∈ l → q x = false) → existsb q l = false.
Proof.
  intros Hq. destruct (existsb q l) eqn:He; [|done].
  apply existsb_exists in He as (x & Hx%list_elem_of_In & Hqx).
  by rewrite (Hq x Hx) in Hqx.
Qed.

(** A new user whose username or email is already in the table is refused
    by the UNIQUE constraint of that column, and nothing is stored. *)
Lemma add_user_clash (w : World) (u : User.t) (username email : string)
    (password_hash : option string) :
  u ∈ user_table w → User.username u = username ∨ User.email u = email →
  ∃ column, (column = "username" ∨ column = "email")%string
    ∧ add_user username email password_hash w
      = (Raise (IntegrityError ("UNIQUE constraint failed: " ++ column)), w).
Proof.
  intros Hu Hclash. unfold add_user. unfold_M.
  set (new := {| User.id := Storage.next_id User.id (user_table w);
                 User.username := username; User.email := email;
                 User.password_hash := password_hash |}).
  unfold Storage.insert, Storage.check.
  change (Storage.violated_not_null User.columns new) with (@None string).
  unfold Storage.violated_unique, User.columns. cbn [find].
  rewrite (existsb_none (Storage.clashes User.id_column new)).
  2:{ intros old Hold. unfold Storage.clashes. cbn.
      rewrite bool_decide_eq_false_2; [done|].
      intros [= Heq]. pose proof (next_id_fresh User.id _ _ Hold). lia. }
  destruct (existsb (Storage.clashes User.username_column new) (user_table w)) eqn:Hname.
  { exists "username"%string. split; [by left|done]. }
  destruct (existsb (Storage.clashes User.email_column new) (user_table w)) eqn:Hmail.
  { exists "email"%string. split; [by right|done]. }
  exfalso. destruct Hclash as [Heq|Heq].
  - rewrite (existsb_true _ _ u Hu) in Hname; [done|].
    apply clashes_true; [done|done|]. cbn. by rewrite Heq.
  - rewrite (existsb_true _ _ u Hu) in Hmail; [done|].
    apply clashes_true; [done|done|]. cbn. by rewrite Heq.
Qed.

(** C5: in every world the store can reach, two distinct rows of [user]
    differ in their username and differ in their email; and creating a
    user with a username or an email that a row already has fails with the
    [IntegrityError] of the UNIQUE constraint on that column, raised by the
    store, with the table left as it was. *)
Theorem username_email_unique (w : World) :
  reachable models_globals w →
  (∀ u1 u2, u1 ∈ user_table w → u2 ∈ user_table w → u1 ≠ u2 →
     User.username u1 ≠ User.username u2 ∧ User.email u1 ≠ User.email u2)
  ∧ (∀ u username email password_hash,
       u ∈ user_table w → User.username u = username ∨ User.email u = email →
       ∃ column, (column = "username" ∨ column = "email")%string
         ∧ add_user username email password_hash w
           = (Raise (IntegrityError ("UNIQUE constraint failed: " ++ column)), w)).
Proof.
  intros (_ & Hname & Hmail)%reachable_users_distinct. split.
  - intros u1 u2 H1 H2 Hne. split; intros Heq; apply Hne.
    + by apply (NoDup_fmap_eq User.username (user_table w)).
    + by apply (NoDup_fmap_eq User.email (user_table w)).
  - intros u username email password_hash. apply add_user_clash.
Qed.

Lemma username_email_unique_witness :
  (∀ u1 u2, u1 ∈ user_table world_ann → u2 ∈ user_table world_ann → u1 ≠ u2 →
     User.username u1 ≠ User.username u2 ∧ User.email u1 ≠ User.email u2)
  ∧ (∀ u username email password_hash,
       u ∈ user_table world_ann →
       User.username u = username ∨ User.email u = email →
       ∃ column, (column = "username" ∨ column = "email")%string
         ∧ add_user username email password_hash world_ann
           = (Raise (IntegrityError ("UNIQUE constraint failed: " ++ column)),
              world_ann)).
Proof.
  apply (username_email_unique world_ann).
  exists 0, 0, [AddUser "ann" "ann@example.org" None]. reflexivity.
Defined.

(** ** The default of [Post.timestamp] *)

(** A post row with a generated key passes the checks of the table. *)
Lemma post_insert_fresh (rows : list Post.t) (body : string) (ts : instant)
    (user_id : Z) :
  let p := {| Post.id := Storage.next_id Post.id rows; Post.body := body;
              Post.timestamp := ts; Post.user_id := user_id |} in
  Storage.insert Post.columns p rows = Return (rows ++ [p]).
Proof.
  intros p. unfold Storage.insert, Storage.check.
  change (Storage.violated_not_null Post.columns p) with (@None string).
  unfold Storage.violated_unique, Post.columns. cbn [find].
  rewrite (existsb_none (Storage.clashes Post.id_column p)).
  2:{ intros old Hold. unfold Storage.clashes. cbn.
      rewrite bool_decide_eq_false_2; [done|].
      intros [= Heq]. pose proof (next_id_fresh Post.id _ _ Hold). lia. }
  rewrite !existsb_none; done.
Qed.

Lemma datetime_now_utc (utc_now local_offset : Z) :
  datetime_now (Some timezone_utc) utc_now local_offset = utc_now.
Proof. unfold datetime_now, timezone_utc. lia. Qed.

(** With the names of the module, creating a post comes to this: the
    driver takes [user_id] or refuses it, the store generates a key or has
    none left, and the row is appended; its timestamp is the one supplied,
    or the reading of the clock in UTC when none is supplied. *)
Lemma add_post_eval (body : string) (timestamp : option instant) (user_id : Z)
    (w : World) :
  let p := {| Post.id := Storage.next_id Post.id (post_table w);
              Post.body := body;
              Post.timestamp := match timestamp with
                                | Some t => t
                                | None => clock w
                                end;
              Post.user_id := user_id |} in
  add_post models_globals body timestamp user_id w
  = if Storage.in_range user_id then
      if Post.id p <=? Storage.max_int
      then (Return p, set_post_table (post_table w ++ [p]) w)
      else (Raise (OperationalError "database or disk is full"), w)
    else (Raise Storage.overflow, w).
Proof.
  unfold add_post, Post.timestamp_default, Storage.bind_int, Storage.generated.
  unfold_M. rewrite resolve_datetime, resolve_timezone.
  destruct timestamp as [t|]; cbn; rewrite ?datetime_now_utc;
    (destruct (Storage.in_range user_id); [|done]);
    rewrite post_insert_fresh; cbn;
    by destruct (_ <=? _).
Qed.












(** * Further properties *)

(** ** Reading an identifier *)

Lemma is_digit_digit_value (c : ascii) :
  is_digit c = true → digit_value c = Some (Z.of_N (code c) - 48).
Proof. unfold is_digit, digit_value. by intros ->. Qed.

Lemma is_digit_not_special (c : ascii) :
  is_digit c = true →
  Py_ISSPACE c = false ∧ Ascii.eqb c "+" = false ∧ Ascii.eqb c "-" = false
  ∧ Ascii.eqb c "_" = false ∧ (code c <? 127)%N = true.
Proof.
  unfold is_digit, Py_ISSPACE. intros [H1%N.leb_le H2%N.leb_le]%andb_true_iff.
  repeat split.
  - apply orb_false_iff. split.
    + apply andb_false_iff. right. apply N.leb_gt. lia.
    + apply N.eqb_neq. lia.
  - destruct (Ascii.eqb_spec c "+") as [->|]; [|done]. vm_compute in H1. done.
  - destruct (Ascii.eqb_spec c "-") as [->|]; [|done]. vm_compute in H1. done.
  - destruct (Ascii.eqb_spec c "_") as [->|]; [|done]. vm_compute in H2. done.
  - apply N.ltb_lt. lia.
Qed.

Lemma scan_digits_digit (c : ascii) (s : string) (prev : bool) (d : N) (acc : Z) :
  is_digit c = true →
  scan_digits (String c s) prev d acc
  = scan_digits s false (d + 1)%N (10 * acc + (Z.of_N (code c) - 48)).
Proof.
  intros Hc. destruct (is_digit_not_special c Hc) as (_ & _ & _ & Hu & _).
  cbn [scan_digits]. by rewrite Hu, (is_digit_digit_value c Hc).
Qed.

Lemma scan_digits_app (ds s : string) (d : N) (acc : Z) :
  all_chars is_digit ds = true →
  scan_digits (ds +:+ s) false d acc
  = scan_digits s false (d + N.of_nat (String.length ds))%N (digits_value ds acc).
Proof.
  revert d acc. induction ds as [|c r IH]; intros d acc Hds.
  - cbn. by rewrite N.add_0_r.
  - cbn [all_chars] in Hds. apply andb_true_iff in Hds as [Hc Hr].
    change (String c r +:+ s) with (String c (r +:+ s)).
    rewrite (scan_digits_digit c _ _ _ _ Hc), (IH _ _ Hr).
    cbn [String.length digits_value]. f_equal. lia.
Qed.

Lemma Transform_digits (ds : string) :
  all_chars is_digit ds = true → TransformDecimalAndSpaceToASCII ds = ds.
Proof.
  induction ds as [|c r IH]; [done|]. cbn [all_chars].
  intros [Hc Hr]%andb_true_iff.
  destruct (is_digit_not_special c Hc) as (_ & _ & _ & _ & Hlt).
  cbn [TransformDecimalAndSpaceToASCII]. by rewrite Hlt, (IH Hr).
Qed.

Lemma digits_value_app (a b : string) (acc : Z) :
  digits_value (a +:+ b) acc = digits_value b (digits_value a acc).
Proof.
  revert acc. induction a as [|c r IH]; intros acc; [done|].
  change (String c r +:+ b) with (String c (r +:+ b)). apply IH.
Qed.

Lemma string_length_app (a b : string) :
  String.length (a +:+ b) = (String.length a + String.length b)%nat.
Proof.
  induction a as [|c r IH]; [done|].
  change (String c r +:+ b) with (String c (r +:+ b)). cbn [String.length].
  by rewrite IH.
Qed.

Lemma string_app_empty_r (a : string) : a +:+ "" = a.
Proof.
  induction a as [|c r IH]; [done|].
  change (String c r +:+ "") with (String c (r +:+ "")). by rewrite IH.
Qed.

Lemma string_app_assoc (a b c : string) : (a +:+ b) +:+ c = a +:+ (b +:+ c).
Proof.
  induction a as [|x r IH]; [done|].
  change ((String x r +:+ b) +:+ c) with (String x ((r +:+ b) +:+ c)).
  change (String x r +:+ (b +:+ c)) with (String x (r +:+ (b +:+ c))).
  by rewrite IH.
Qed.

Lemma all_chars_app (q : ascii → bool) (a b : string) :
  all_chars q (a +:+ b) = all_chars q a && all_chars q b.
Proof.
  induction a as [|c r IH]; [done|].
  change (String c r +:+ b) with (String c (r +:+ b)).
  cbn [all_chars]. by rewrite IH, andb_assoc.
Qed.

Lemma pretty_N_char_digit (y : N) :
  (y < 10)%N →
  is_digit (pretty_N_char y) = true
  ∧ Z.of_N (code (pretty_N_char y)) - 48 = Z.of_N y.
Proof.
  intros Hy.
  assert (y = 0 ∨ y = 1 ∨ y = 2 ∨ y = 3 ∨ y = 4 ∨ y = 5 ∨ y = 6 ∨ y = 7
          ∨ y = 8 ∨ y = 9)%N as Hcases by lia.
  repeat (destruct Hcases as [->|Hcases]; [by vm_compute|]). by subst.
Qed.

(** The numeral of a positive number: digits, most significant first, in
    front of what was there; as many digits as the number needs. *)
Lemma pretty_N_go_shape (x : N) (s : string) :
  (0 < x)%N →
  ∃ ds, pretty_N_go x s = ds +:+ s
    ∧ all_chars is_digit ds = true
    ∧ digits_value ds 0 = Z.of_N x
    ∧ (0 < String.length ds)%nat
    ∧ 10 ^ (Z.of_nat (String.length ds) - 1) ≤ Z.of_N x.
Proof.
  revert s. induction (N.lt_wf_0 x) as [x _ IH]. intros s Hx.
  rewrite pretty_N_go_step by done.
  assert (Hmod : (x `mod` 10 < 10)%N) by (apply N.mod_lt; lia).
  destruct (pretty_N_char_digit _ Hmod) as [Hdig Hval].
  pose proof (N.div_mod x 10 ltac:(lia)) as Hdm.
  set (ch := pretty_N_char (x `mod` 10)) in *.
  destruct (decide (x `div` 10 = 0)%N) as [Hz|Hnz].
  - rewrite Hz, pretty_N_go_0. exists (String ch ""). repeat split.
    + cbn. by rewrite Hdig.
    + cbn. lia.
    + cbn. lia.
    + cbn. lia.
  - destruct (IH (x `div` 10)%N) with (s := String ch s)
      as (ds & Heq & Hds & Hv & Hlen & Hpow).
    { apply N.div_lt; lia. }
    { lia. }
    exists (ds +:+ String ch ""). repeat split.
    + by rewrite Heq, string_app_assoc.
    + rewrite all_chars_app, Hds. cbn. by rewrite Hdig.
    + rewrite digits_value_app, Hv. cbn. lia.
    + rewrite string_length_app. lia.
    + rewrite string_length_app. cbn [String.length].
      replace (Z.of_nat (String.length ds + 1) - 1)
        with (Z.succ (Z.of_nat (String.length ds) - 1)) by lia.
      rewrite Z.pow_succ_r by lia.
      set (P := 10 ^ (Z.of_nat (String.length ds) - 1)) in *. clearbody P.
      clear -Hdm Hpow. set (q := (x `div` 10)%N) in *. clearbody q.
      set (m := (x `mod` 10)%N) in *. clearbody m. lia.
Qed.

(** A text of digits, no more than the limit, is read as its value. *)
Lemma PyLong_FromString_digits (ds : string) :
  all_chars is_digit ds = true → (0 < String.length ds)%nat →
  (N.of_nat (String.length ds) ≤ int_max_str_digits)%N →
  PyLong_FromString ds = Return (digits_value ds 0)
  ∧ PyLong_FromString (String "-" ds) = Return (- digits_value ds 0).
Proof.
  intros Hds Hlen Hmax.
  destruct ds as [|c r]; [cbn in Hlen; lia|].
  pose proof Hds as Hc. cbn [all_chars] in Hc. apply andb_true_iff in Hc as [Hc _].
  destruct (is_digit_not_special c Hc) as (Hsp & Hplus & Hminus & Hund & _).
  assert (Hscan : scan_digits (String c r) false 0%N 0
                  = Some (N.of_nat (String.length (String c r)),
                          digits_value (String c r) 0, ""%string)).
  { pose proof (scan_digits_app (String c r) "" 0%N 0 Hds) as Happ.
    rewrite string_app_empty_r in Happ. rewrite Happ. by cbn. }
  assert (Hnz : (N.of_nat (String.length (String c r)) =? 0)%N = false).
  { apply N.eqb_neq. cbn [String.length]. lia. }
  assert (Hlim : (int_max_str_digits <? N.of_nat (String.length (String c r)))%N
                 = false).
  { apply N.ltb_ge. done. }
  split.
  - unfold PyLong_FromString. cbn [skip_space]. rewrite Hsp.
    cbn [starts_with]. rewrite Hplus, Hminus. cbn [starts_with]. rewrite Hund.
    rewrite Hscan, Hnz. cbn [skip_space]. rewrite Hlim. f_equal; lia.
  - unfold PyLong_FromString.
    change (skip_space (String "-" (String c r))) with (String "-" (String c r)).
    change (starts_with "+" (String "-" (String c r))) with false.
    change (starts_with "-" (String "-" (String c r))) with true.
    cbn [tail starts_with]. rewrite Hund.
    rewrite Hscan, Hnz. cbn [skip_space]. rewrite Hlim. f_equal; lia.
Qed.

(** [int(str(n))] is [n], for a numeral within the limit on digits. *)
Lemma int_of_str_str_int (n : Z) :
  Z.abs n < int_str_bound → int_of_str (str_int n) = Return n.
Proof.
  intros Hbound.
  assert (Hpos : ∀ p : positive, Z.pos p < int_str_bound →
            ∃ ds, pretty (N.pos p) = ds ∧ all_chars is_digit ds = true
              ∧ digits_value ds 0 = Z.pos p ∧ (0 < String.length ds)%nat
              ∧ (N.of_nat (String.length ds) ≤ int_max_str_digits)%N).
  { intros p Hp. unfold pretty, pretty_N.
    destruct (decide (N.pos p = 0%N)) as [|_]; [done|].
    destruct (pretty_N_go_shape (N.pos p) "" ltac:(lia))
      as (ds & Heq & Hds & Hv & Hlen & Hpow).
    exists ds. rewrite Heq, string_app_empty_r. repeat split; try done.
    unfold int_str_bound in Hp.
    destruct (decide (Z.of_nat (String.length ds) - 1 < Z.of_N int_max_str_digits))
      as [Hlt|Hge]; [lia|].
    exfalso.
    pose proof (Z.pow_le_mono_r 10 (Z.of_N int_max_str_digits)
                  (Z.of_nat (String.length ds) - 1) ltac:(lia) ltac:(lia)).
    change (Z.of_N (N.pos p)) with (Z.pos p) in Hpow. lia. }
  unfold int_of_str, str_int. destruct n as [|p|p].
  - reflexivity.
  - destruct (Hpos p ltac:(lia)) as (ds & Heq & Hds & Hv & Hlen & Hmax).
    change (pretty (Z.pos p)) with (pretty (N.pos p)). rewrite Heq.
    rewrite (Transform_digits ds Hds).
    destruct (PyLong_FromString_digits ds Hds Hlen Hmax) as [-> _]. by rewrite Hv.
  - destruct (Hpos p ltac:(lia)) as (ds & Heq & Hds & Hv & Hlen & Hmax).
    change (pretty (Z.neg p)) with ("-" +:+ pretty (N.pos p)). rewrite Heq.
    change ("-" +:+ ds) with (String "-" ds).
    change (TransformDecimalAndSpaceToASCII (String "-" ds))
      with (String "-" (TransformDecimalAndSpaceToASCII ds)).
    rewrite (Transform_digits ds Hds).
    destruct (PyLong_FromString_digits ds Hds Hlen Hmax) as [_ ->]. by rewrite Hv.
Qed.






(** ** The keys of the stored rows *)

Lemma next_id_above_min {R} (id : R → Z) (rows : list R) :
  Forall (λ r, Storage.in_range (id r) = true) rows →
  Storage.min_int ≤ Storage.next_id id rows.
Proof.
  destruct rows as [|r rows]; [by intros _; vm_compute|].
  intros [Hr _]%Forall_cons.
  pose proof (next_id_fresh id (r :: rows) r (list_elem_of_here _ _)) as Hlt.
  unfold Storage.in_range in Hr. apply andb_true_iff in Hr as [Hr%Z.leb_le _].
  lia.
Qed.

Lemma step_user_keys_in_range (globals : gmap string pyobj) (o : op) (w : World) :
  Forall (λ u, Storage.in_range (User.id u) = true) (user_table w) →
  Forall (λ u, Storage.in_range (User.id u) = true)
    (user_table (step globals o w)).
Proof.
  intros Hinv. destruct o as [d|username email h|u|pk|body ts uid|id|k username email h|k body ts uid]; cbn [step].
  - done.
  - rewrite add_user_eval. unfold Storage.insert.
    destruct (Storage.check _ _ _) as [[]|e]; [|done]. cbn.
    destruct (_ <=? _) eqn:Hmax; [|done]. cbn.
    apply Forall_app. split; [done|]. constructor; [|constructor].
    cbn. unfold Storage.in_range. rewrite Hmax, andb_true_r.
    apply Z.leb_le. by apply next_id_above_min.
  - rewrite update_user_eval. destruct (Storage.in_range _) eqn:Hu; [|done].
    unfold Storage.update. destruct (existsb _ _); [|done].
    destruct (Storage.check _ _ _) as [[]|e]; [|done]. cbn.
    apply Forall_fmap. eapply Forall_impl; [exact Hinv|].
    intros r Hr. cbn. by destruct (Storage.has_key _ _ _).
  - rewrite delete_user_eval. destruct (Storage.in_range _); [|done]. cbn.
    unfold Storage.delete.
    apply Forall_forall. intros x [_ Hx]%list_elem_of_filter.
    by apply (proj1 (Forall_forall _ _) Hinv).
  - by rewrite (proj1 (add_post_frame globals body ts uid w)).
  - by rewrite load_user_state.
  - rewrite add_user_with_id_eval. destruct (Storage.in_range k) eqn:Hk; [|done].
    unfold Storage.insert.
    destruct (Storage.check _ _ _) as [[]|e]; [|done]. cbn.
    apply Forall_app. split; [done|]. by constructor.
  - by rewrite (proj1 (add_post_with_id_frame globals k body ts uid w)).
Qed.

Lemma step_post_keys (o : op) (w : World) :
  NoDup (Post.id <$> post_table w) →
  NoDup (Post.id <$> post_table (step models_globals o w)).
Proof.
  intros Hnd.
  destruct o as [d|username email h|u|pk|body ts uid|id|k username email h|k body ts uid]; cbn [step].
  - done.
  - rewrite add_user_eval.
    destruct (Storage.insert _ _ _); [|done]. by destruct (_ <=? _).
  - rewrite update_user_eval. destruct (Storage.in_range _); [|done].
    by destruct (Storage.update _ _ _ _).
  - rewrite delete_user_eval. by destruct (Storage.in_range _).
  - rewrite add_post_eval. destruct (Storage.in_range uid); [|done].
    destruct (_ <=? _); [|done]. cbn.
    apply NoDup_fmap_snoc; [done|]. intros old Hold. cbn.
    pose proof (next_id_fresh Post.id _ _ Hold). lia.
  - by rewrite load_user_state.
  - rewrite add_user_with_id_eval. destruct (Storage.in_range _); [|done].
    by destruct (Storage.insert _ _ _).
  - unfold add_post_with_id, Post.timestamp_default, Storage.bind_int,
      Storage.insert.
    unfold_M. rewrite resolve_datetime, resolve_timezone.
    destruct ts as [t|]; cbn;
      (destruct (Storage.in_range k); cbn; [|done]);
      (destruct (Storage.in_range uid); cbn; [|done]);
      (destruct (Storage.check _ _ _) as [[]|e] eqn:Hcheck; cbn; [|done]);
      (apply NoDup_fmap_snoc; [done|]);
      intros old Hold Heq;
      eapply (check_Return Post.columns _ _ Post.id_column old Hcheck);
      try done; try (unfold Post.columns; set_solver);
      cbn; by rewrite Heq.
Qed.

Lemma reachable_keys (w : World) :
  reachable models_globals w →
  NoDup (Post.id <$> post_table w)
  ∧ Forall (λ u, Storage.in_range (User.id u) = true) (user_table w).
Proof.
  intros (t & offset & ops & ->). unfold run.
  assert (Hgen : ∀ w0,
    NoDup (Post.id <$> post_table w0)
    ∧ Forall (λ u, Storage.in_range (User.id u) = true) (user_table w0) →
    NoDup (Post.id <$> post_table
             (fold_left (λ w o, step models_globals o w) ops w0))
    ∧ Forall (λ u, Storage.in_range (User.id u) = true)
        (user_table (fold_left (λ w o, step models_globals o w) ops w0))).
  { induction ops as [|o ops IH]; intros w0 Hinv; [done|].
    cbn [fold_left]. apply IH. destruct Hinv as [Hnd Hu]. split.
    - by apply step_post_keys.
    - by apply step_user_keys_in_range. }
  apply Hgen. cbn. split; constructor.
Qed.

Lemma reachable_user_in_range (w : World) (u : User.t) :
  reachable models_globals w → u ∈ user_table w →
  Storage.in_range (User.id u) = true.
Proof.
  intros [_ Hall]%reachable_keys Hu.
  by apply (proj1 (Forall_forall _ _) Hall).
Qed.

(** X8: the primary keys.  In every world the store can reach, no two rows
    of [user] share an [id] and no two rows of [post] share an [id]. *)
Theorem primary_keys_distinct (w : World) :
  reachable models_globals w →
  NoDup (User.id <$> user_table w) ∧ NoDup (Post.id <$> post_table w).
Proof.
  intros Hreach. split.
  - by apply (reachable_users_distinct models_globals).
  - by apply reachable_keys.
Qed.

Lemma primary_keys_distinct_witness :
  NoDup (User.id <$> user_table world_blog)
  ∧ NoDup (Post.id <$> post_table world_blog).
Proof.
  apply (primary_keys_distinct world_blog).
  exists 0, 0, [AddUser "ann" "ann@example.org" None;
                AddUser "bob" "bob@example.org" None; AddPost "hi" None 1].
  reflexivity.
Defined.

(** A stored row is what the lookup by its key gives, when keys are not
    shared. *)
Lemma lookup_unique (rows : list User.t) (u : User.t) :
  users_distinct rows → u ∈ rows →
  Storage.lookup User.columns (User.id u) rows = Some u.
Proof.
  intros (Hid & _) Hu.
  destruct (Storage.lookup User.columns (User.id u) rows) as [u'|] eqn:Hget.
  - destruct (lookup_Some _ _ _ Hget) as [Hu' Hid'].
    f_equal. by apply (NoDup_fmap_eq User.id rows).
  - by destruct (lookup_None _ _ u Hget Hu).
Qed.

(** X2: the session round trip.  In every world the store can reach, the
    decimal numeral of the key of a stored user, handed to [load_user],
    gives back that very user, for every key whose numeral has at most 4300
    digits (the limit of [int] on the length of a numeral). *)
Theorem load_user_str_id (w : World) (u : User.t) :
  reachable models_globals w → u ∈ user_table w →
  Z.abs (User.id u) < int_str_bound →
  load_user models_globals (str_int (User.id u)) w = (Return (Some u), w).
Proof.
  intros Hreach Hu Hbound.
  rewrite load_user_eval, (int_of_str_str_int _ Hbound).
  rewrite (reachable_user_in_range w u Hreach Hu).
  apply reachable_users_distinct in Hreach.
  by rewrite (lookup_unique _ _ Hreach Hu).
Qed.

Lemma load_user_str_id_witness :
  load_user models_globals (str_int (User.id ann)) world_ann
  = (Return (Some ann), world_ann).
Proof.
  apply (load_user_str_id world_ann ann).
  - exists 0, 0, [AddUser "ann" "ann@example.org" None]. reflexivity.
  - vm_compute. apply list_elem_of_here.
  - vm_compute. reflexivity.
Defined.



(** ** Creating, changing and removing users *)

(** A row that differs from every stored row in key, username and email
    passes the checks of the [user] table. *)
Lemma user_check_ok (rows : list User.t) (new : User.t) :
  (∀ old, old ∈ rows →
     User.id old ≠ User.id new ∧ User.username old ≠ User.username new
     ∧ User.email old ≠ User.email new) →
  Storage.check User.columns rows new = Return tt.
Proof.
  intros Hfree. unfold Storage.check.
  change (Storage.violated_not_null User.columns new) with (@None string).
  unfold Storage.violated_unique, User.columns. cbn [find].
  rewrite !existsb_none; [done|..]; intros old Hold;
    destruct (Hfree old Hold) as (Hid & Hname & Hmail);
    unfold Storage.clashes; cbn; try done;
    rewrite bool_decide_eq_false_2; try done; by intros [=].
Qed.

(** X1: as long as the largest key of the table is not the largest
    integer of the store, creating a user succeeds exactly when no stored
    user has the username and none has the email; the password hash plays
    no part.  The new row carries the three values given and a key that no
    stored row has, and it is appended to the table. *)
Theorem add_user_succeeds_iff_unused (w : World) (username email : string)
    (password_hash : option string) :
  (∀ old, old ∈ user_table w → User.id old < Storage.max_int) →
  (∀ old, old ∈ user_table w →
     User.username old ≠ username ∧ User.email old ≠ email)
  ↔ ∃ u, add_user username email password_hash w
         = (Return u, set_user_table (user_table w ++ [u]) w)
       ∧ User.username u = username ∧ User.email u = email
       ∧ User.password_hash u = password_hash
       ∧ ∀ old, old ∈ user_table w → User.id old ≠ User.id u.
Proof.
  intros Hroom. split.
  - intros Hfree.
    set (u := {| User.id := Storage.next_id User.id (user_table w);
                 User.username := username; User.email := email;
                 User.password_hash := password_hash |}).
    assert (Hkey : (User.id u <=? Storage.max_int) = true).
    { apply Z.leb_le. cbn. unfold Storage.next_id.
      destruct (user_table w) as [|r rows] eqn:Hrows; [by vm_compute|].
      destruct (fold_max_bound (User.id r) (User.id <$> rows)) as [_ Hmax].
      assert (Hle : ∀ l a, a < Storage.max_int →
                (∀ z, z ∈ l → z < Storage.max_int) →
                fold_right Z.max a l < Storage.max_int).
      { clear. induction l as [|y l IH]; intros a Ha Hl; [done|].
        cbn [fold_right].
        pose proof (Hl y (list_elem_of_here _ _)).
        specialize (IH a Ha (λ z Hz, Hl z (list_elem_of_further _ _ _ Hz))).
        lia. }
      specialize (Hle (User.id <$> rows) (User.id r)
                    (Hroom r (list_elem_of_here _ _))).
      assert (fold_right Z.max (User.id r) (User.id <$> rows) < Storage.max_int).
      { apply Hle. intros z (old & -> & Hold)%list_elem_of_fmap.
        apply Hroom. by apply list_elem_of_further. }
      lia. }
    exists u. repeat split; try done.
    + rewrite add_user_eval. fold u. unfold Storage.insert.
      rewrite (user_check_ok _ u).
      { cbn [mbind result_bind rbind]. by rewrite Hkey. }
      intros old Hold. destruct (Hfree old Hold) as [Hname Hmail].
      repeat split; try done.
      pose proof (next_id_fresh User.id _ _ Hold). cbn. lia.
    + intros old Hold. pose proof (next_id_fresh User.id _ _ Hold). cbn. lia.
  - intros (u & Hadd & _) old Hold. split; intros Heq.
    + destruct (add_user_clash w old username email password_hash Hold
                  (or_introl Heq)) as (c & _ & Hraise).
      by rewrite Hraise in Hadd.
    + destruct (add_user_clash w old username email password_hash Hold
                  (or_intror Heq)) as (c & _ & Hraise).
      by rewrite Hraise in Hadd.
Qed.

Lemma add_user_succeeds_iff_unused_witness :
  (∀ old, old ∈ user_table world_ann →
     User.username old ≠ "bob"%string ∧ User.email old ≠ "bob@example.org"%string)
  ↔ ∃ u, add_user "bob" "bob@example.org" None world_ann
         = (Return u, set_user_table (user_table world_ann ++ [u]) world_ann)
       ∧ User.username u = "bob"%string ∧ User.email u = "bob@example.org"%string
       ∧ User.password_hash u = None
       ∧ ∀ old, old ∈ user_table world_ann → User.id old ≠ User.id u.
Proof.
  apply (add_user_succeeds_iff_unused world_ann "bob" "bob@example.org" None).
  intros old Hold. apply list_elem_of_singleton in Hold as ->.
  vm_compute. reflexivity.
Defined.

(** ** What the operations do to [load_user] *)

Lemma find_app_Some {A} (q : A → bool) (l l' : list A) (x : A) :
  find q l = Some x → find q (l ++ l') = Some x.
Proof.
  induction l as [|a l IH]; [done|]. cbn. by destruct (q a).
Qed.

Lemma step_lookup_stable (o : op) (w : World) (pk : Z) (u : User.t) :
  keeps_users o = true →
  Storage.lookup User.columns pk (user_table w) = Some u →
  Storage.lookup User.columns pk (user_table (step models_globals o w)) = Some u.
Proof.
  intros Hkeep Hget.
  destruct o as [d|username email h|u'|pk'|body ts uid|id|k username email h|k body ts uid]; try done; cbn [step].
  - rewrite add_user_eval. unfold Storage.insert.
    destruct (Storage.check _ _ _) as [[]|e]; [|done]. cbn.
    destruct (_ <=? _); [|done]. cbn. by apply find_app_Some.
  - by rewrite (proj1 (add_post_frame models_globals body ts uid w)).
  - by rewrite load_user_state.
  - rewrite add_user_with_id_eval. destruct (Storage.in_range _); [|done].
    unfold Storage.insert.
    destruct (Storage.check _ _ _) as [[]|e]; [|done]. cbn.
    by apply find_app_Some.
  - by rewrite (proj1 (add_post_with_id_frame models_globals k body ts uid w)).
Qed.

(** X9: a user that [load_user] finds stays found.  Creating users (with
    or without success), creating posts, the passing of time and
    [load_user] itself leave the answer of [load_user] for an identifier
    that names a user as it was. *)
Theorem load_user_stable (o : op) (id : string) (u : User.t) (w : World) :
  keeps_users o = true →
  load_user models_globals id w = (Return (Some u), w) →
  load_user models_globals id (step models_globals o w)
  = (Return (Some u), step models_globals o w).
Proof.
  intros Hkeep. rewrite !load_user_eval.
  destruct (int_of_str id) as [pk|e]; [|done].
  destruct (Storage.in_range pk); [|done].
  intros [= Hget]. by rewrite (step_lookup_stable o w pk u Hkeep Hget).
Qed.

Lemma load_user_stable_witness :
  load_user models_globals "1"
    (step models_globals (AddUser "bob" "bob@example.org" None) world_ann)
  = (Return (Some ann),
     step models_globals (AddUser "bob" "bob@example.org" None) world_ann).
Proof.
  apply (load_user_stable (AddUser "bob" "bob@example.org" None) "1" ann world_ann);
    reflexivity.
Defined.

Lemma lookup_replace (rows : list User.t) (new : User.t) (pk : Z) :
  existsb (Storage.has_key User.columns (User.id new)) rows = true →
  Storage.lookup User.columns pk
    ((λ r, if Storage.has_key User.columns (User.id new) r then new else r) <$> rows)
  = if decide (pk = User.id new) then Some new
    else Storage.lookup User.columns pk rows.
Proof.
  unfold Storage.lookup. induction rows as [|r rows IH]; [done|].
  cbn [existsb]. rewrite fmap_cons. cbn [find]. rewrite (user_has_key _ r).
  destruct (decide (User.id r = User.id new)) as [Hr|Hr].
  - rewrite (bool_decide_eq_true_2 _ Hr). intros _. rewrite !user_has_key.
    destruct (decide (pk = User.id new)) as [->|Hne].
    + by rewrite bool_decide_eq_true_2.
    + rewrite !bool_decide_eq_false_2 by congruence.
      destruct (existsb (Storage.has_key User.columns (User.id new)) rows) eqn:Hex.
      * rewrite (IH eq_refl). by destruct (decide (pk = User.id new)).
      * clear IH. induction rows as [|r' rows IH']; [done|].
        cbn [existsb] in Hex. apply orb_false_iff in Hex as [Hr' Hex].
        rewrite fmap_cons, Hr'. cbn [find]. by rewrite (IH' Hex).
  - rewrite (bool_decide_eq_false_2 _ Hr). cbn [orb]. intros Hex.
    rewrite user_has_key, (IH Hex).
    destruct (decide (pk = User.id new)) as [->|Hne]; [|done].
    by rewrite bool_decide_eq_false_2.
Qed.

(** X11: writing a new password hash back.  In every world the store can
    reach, updating the row of a stored user with the same user carrying
    another [password_hash] (which is what a flush after [set_password]
    writes) never violates a constraint; afterwards the lookup by the key
    of the user gives the user with the new hash, the lookup by any other
    key is as before, and the posts and the clock are untouched. *)
Theorem update_password_hash_visible (w : World) (u : User.t) (h : option string) :
  reachable models_globals w → u ∈ user_table w →
  ∃ w', update_user (User.with_password_hash h u) w = (Return tt, w')
    ∧ post_table w' = post_table w ∧ clock w' = clock w
    ∧ ∀ pk, Storage.lookup User.columns pk (user_table w')
            = if decide (pk = User.id u) then Some (User.with_password_hash h u)
              else Storage.lookup User.columns pk (user_table w).
Proof.
  intros Hreach Hu.
  pose proof (reachable_user_in_range w u Hreach Hu) as Hrange.
  apply reachable_users_distinct in Hreach as (Hid & Hname & Hmail).
  set (new := User.with_password_hash h u).
  assert (Hex : existsb (Storage.has_key User.columns (User.id new)) (user_table w)
                = true).
  { apply (existsb_true _ _ u Hu). rewrite user_has_key.
    by apply bool_decide_eq_true_2. }
  assert (Hcheck : Storage.check User.columns
            (filter (λ r, Storage.has_key User.columns (User.id new) r = false)
               (user_table w)) new = Return tt).
  { apply user_check_ok. intros old [Hk Hold]%list_elem_of_filter.
    rewrite user_has_key in Hk. apply bool_decide_eq_false_1 in Hk.
    assert (Hne : old ≠ u) by (intros ->; by apply Hk).
    repeat split; try done; intros Heq; apply Hne.
    - by apply (NoDup_fmap_eq User.username (user_table w)).
    - by apply (NoDup_fmap_eq User.email (user_table w)). }
  exists (set_user_table
            ((λ r, if Storage.has_key User.columns (User.id new) r then new else r)
               <$> user_table w) w).
  split; [|split; [|split]].
  - rewrite update_user_eval. fold new.
    change (User.id new) with (User.id u). rewrite Hrange.
    unfold Storage.update. change (User.id u) with (User.id new).
    by rewrite Hex, Hcheck.
  - done.
  - done.
  - intros pk. cbn [user_table set_user_table].
    by rewrite (lookup_replace _ new pk Hex).
Qed.

Lemma update_password_hash_visible_witness :
  ∃ w', update_user (User.with_password_hash (Some "h") ann) world_ann
        = (Return tt, w')
    ∧ post_table w' = post_table world_ann ∧ clock w' = clock world_ann
    ∧ ∀ pk, Storage.lookup User.columns pk (user_table w')
            = if decide (pk = User.id ann)
              then Some (User.with_password_hash (Some "h") ann)
              else Storage.lookup User.columns pk (user_table world_ann).
Proof.
  apply (update_password_hash_visible world_ann ann (Some "h"%string)).
  - exists 0, 0, [AddUser "ann" "ann@example.org" None]. reflexivity.
  - vm_compute. apply list_elem_of_here.
Defined.

(** ** The representations *)

Lemma string_app_inj_r (a b c : string) : a +:+ c = b +:+ c → a = b.
Proof.
  intros Heq.
  assert (Hlen : String.length a = String.length b).
  { pose proof (f_equal String.length Heq) as Hl.
    rewrite !string_length_app in Hl. lia. }
  revert b Heq Hlen. induction a as [|x r IH]; intros [|y r'] Heq Hlen; try done.
  change (String x (r +:+ c) = String y (r' +:+ c)) in Heq.
  injection Heq as -> Heq. f_equal. apply IH; [done|]. cbn in Hlen. lia.
Qed.

Lemma User__repr___inj (u1 u2 : User.t) :
  User__repr__ u1 = User__repr__ u2 → User.username u1 = User.username u2.
Proof.
  unfold User__repr__. intros Heq%(inj (String.app "<User ")).
  by apply string_app_inj_r in Heq.
Qed.

(** X5: the representation identifies the user.  In every world the store
    can reach, two distinct stored users have distinct [repr]s: the text
    shows the username, and usernames are unique. *)
Theorem user_repr_identifies (w : World) (u1 u2 : User.t) :
  reachable models_globals w → u1 ∈ user_table w → u2 ∈ user_table w →
  u1 ≠ u2 → User__repr__ u1 ≠ User__repr__ u2.
Proof.
  intros (_ & Hname & _)%reachable_users_distinct H1 H2 Hne Heq%User__repr___inj.
  apply Hne. by apply (NoDup_fmap_eq User.username (user_table w)).
Qed.

Lemma user_repr_identifies_witness : User__repr__ ann ≠ User__repr__ bob.
Proof.
  apply (user_repr_identifies world_blog ann bob).
  - exists 0, 0, [AddUser "ann" "ann@example.org" None;
               AddUser "bob" "bob@example.org" None; AddPost "hi" None 1].
    reflexivity.
  - vm_compute. apply list_elem_of_here.
  - vm_compute. apply list_elem_of_further, list_elem_of_here.
  - discriminate.
Defined.

(** X6: the representation of a post shows its body and nothing else: two
    posts have the same [repr] exactly when they have the same body,
    whatever their keys, timestamps and authors; and no user has the
    [repr] of a post. *)
Theorem post_repr_shows_body (p1 p2 : Post.t) (u : User.t) :
  (Post__repr__ p1 = Post__repr__ p2 ↔ Post.body p1 = Post.body p2)
  ∧ User__repr__ u ≠ Post__repr__ p1.
Proof.
  unfold Post__repr__, User__repr__. split; [split|].
  - intros Heq%(inj (String.app "<Post ")). by apply string_app_inj_r in Heq.
  - by intros ->.
  - intros [=].
Qed.

(** ** The credential methods, whatever the names are bound to *)

(** X7: [check_password] writes nothing, and its outcome depends on the
    heap only through the [password_hash] of the instance it is called on:
    in two heaps where that attribute is the same the outcome is the same,
    whatever the other attributes, users and posts are.  This holds for
    any binding of the names of the module. *)
Theorem check_password_reads_only_the_hash (globals : gmap string pyobj)
    (self : ref) (password : string) (h : Heap) :
  (check_password globals self password h).2 = h
  ∧ ∀ h2, User.password_hash <$> users h2 !! self
           = User.password_hash <$> users h !! self →
          (check_password globals self password h2).1
          = (check_password globals self password h).1.
Proof.
  unfold check_password, getattr_password_hash. unfold_M. split.
  - destruct (resolve globals "check_password_hash"); [|done].
    by destruct (users h !! self).
  - intros h2 Hsame.
    destruct (resolve globals "check_password_hash"); [|done].
    destruct (users h2 !! self) as [u2|], (users h !! self) as [u|];
      try done.
    cbn in Hsame. injection Hsame as ->. done.
Qed.

(** X13: the two methods are wrappers.  Where the two names are bound to
    callables and [generate_password_hash] returns a text for the password,
    [set_password] stores exactly that text as the [password_hash] of the
    instance, and a [check_password] that follows on the same instance
    returns exactly what [check_password_hash] returns for that text and
    the candidate, leaving the heap as [set_password] left it.  (The module
    itself binds neither name.) *)
Theorem credential_methods_delegate (globals : gmap string pyobj)
    (gen : pyval → result pyval) (chk : pyval → pyval → result pyval)
    (self : ref) (u : User.t) (p p' hash : string) (h : Heap) :
  globals !! "generate_password_hash"%string = Some (Callable1 gen) →
  globals !! "check_password_hash"%string = Some (Callable2 chk) →
  users h !! self = Some u → gen (VStr p) = Return (VStr hash) →
  let h' := set_users (<[self := User.with_password_hash (Some hash) u]> (users h)) h in
  set_password globals self p h = (Return tt, h')
  ∧ check_password globals self p' h' = (chk (VStr hash) (VStr p'), h').
Proof.
  intros Hgen Hchk Hu Hhash h'. split.
  - by apply (set_password_imported globals gen Hgen).
  - rewrite (check_password_imported globals chk Hchk self
               (User.with_password_hash (Some hash) u)); [done|].
    cbn. by rewrite lookup_insert_eq.
Qed.

Lemma credential_methods_delegate_witness :
  let h' := set_users
              (<[1%N := User.with_password_hash (Some "tag$secret"%string) ann]>
                 (users heap_ann)) heap_ann in
  set_password globals_with_hashing 1%N "secret" heap_ann = (Return tt, h')
  ∧ check_password globals_with_hashing 1%N "guess" h'
    = (tagging_check (VStr "tag$secret") (VStr "guess"), h').
Proof.
  apply (credential_methods_delegate globals_with_hashing tagging_hash
           tagging_check 1%N ann "secret" "guess" "tag$secret" heap_ann);
    reflexivity.
Defined.

(** ** The relationship between users and posts *)

(** X12: the two sides of the relationship agree.  In every world the
    store can reach and for every stored user, a post is among the posts
    selected through [user.posts] exactly when it is a stored post whose
    [author] is that user; so no post is among the posts of two users. *)
Theorem posts_author_agree (w : World) (u : User.t) (p : Post.t) :
  reachable models_globals w → u ∈ user_table w →
  ∃ ps, User_posts_select u w = (Return ps, w)
    ∧ (p ∈ ps ↔ p ∈ post_table w ∧ Post_author p w = (Return (Some u), w)).
Proof.
  intros Hreach Hu.
  pose proof (reachable_user_in_range w u Hreach Hu) as Hrange.
  apply reachable_users_distinct in Hreach.
  exists (filter (λ p, Post.user_id p = User.id u) (post_table w)).
  split; [done|]. unfold Post_author, Session_get_User, Storage.bind_int.
  unfold_M. rewrite list_elem_of_filter. split.
  - intros [Hid Hp]. split; [done|]. rewrite Hid, Hrange. cbn.
    by rewrite (lookup_unique _ _ Hreach Hu).
  - intros [Hp Hget]. split; [|done].
    destruct (Storage.in_range (Post.user_id p)); cbn in Hget; [|done].
    injection Hget as Hget. by destruct (lookup_Some _ _ _ Hget) as [_ ->].
Qed.

Lemma posts_author_agree_witness :
  ∃ ps, User_posts_select ann world_blog = (Return ps, world_blog)
    ∧ (first_post ∈ ps
       ↔ first_post ∈ post_table world_blog
         ∧ Post_author first_post world_blog = (Return (Some ann), world_blog)).
Proof.
  apply (posts_author_agree world_blog ann first_post).
  - exists 0, 0, [AddUser "ann" "ann@example.org" None;
               AddUser "bob" "bob@example.org" None; AddPost "hi" None 1].
    reflexivity.
  - vm_compute. apply list_elem_of_here.
Defined.
